(** * Kerkliedjie-aanbevelings: the recommendation engine of [recommend_songs.py]
    and the scripts that build its corpus

    A shallow embedding of [preprocess_songs], [get_song_embeddings],
    [get_recommendations_fast] and the button handler of [main], with the
    library calls they make (Python [str.join]/[str.strip], list slicing,
    numpy [argsort] and [round], scikit-learn [cosine_similarity],
    streamlit [cache_resource]) modelled next to them.

    Conventions.
    - A Python [str] is a list of Unicode code points.
    - A song is a JSON object with the keys ['filename'] and ['lyrics'],
      either of which may be absent.
    - Similarity scores are rationals: the float32 arithmetic of the
      libraries is read as exact arithmetic, the square root being an
      interface with the two facts the development uses.
    - A call that can raise returns an [Outcome]; code that reads or
      writes the embedding cache or calls the embedding model runs in the
      monad [App], whose state carries the cache and the trace of calls.
    - The scripts [keep_only_relevant.py], [combine_jsons.py] and
      [parse_pdf.py] work on files: a file is missing, unreadable or has
      a content, and a script is a function from the files it finds to
      what it returns and the files it leaves; a write completes, or
      raises and leaves its file in some state. Log messages are left
      out. *)

From Stdlib Require Import ZArith NArith QArith Qround Qabs Lia Lqa.
From Stdlib Require Import List Sorted Permutation Ascii String.
From stdpp Require Import base list sorting gmap.

Local Open Scope nat_scope.
Local Open Scope list_scope.

(** * Part I: the embedding

    ** Python strings *)

Module Py.

Definition str := list N.

(** A literal of the source, code point by code point. *)
Definition lit (s : string) : str :=
  List.map N_of_ascii (list_ascii_of_string s).

(** [str.isspace] on one character: the code points CPython's
    [_PyUnicode_IsWhitespace] accepts. *)
Definition isspace (c : N) : bool :=
  ((9 <=? c) && (c <=? 13) || (28 <=? c) && (c <=? 32)
   || (c =? 133) || (c =? 160) || (c =? 5760)
   || (8192 <=? c) && (c <=? 8202)
   || (c =? 8232) || (c =? 8233) || (c =? 8239) || (c =? 8287)
   || (c =? 12288))%N.

Fixpoint lstrip (s : str) : str :=
  match s with
  | c :: rest => if isspace c then lstrip rest else s
  | [] => []
  end.

Definition rstrip (s : str) : str := rev (lstrip (rev s)).

(** [s.strip()] *)
Definition strip (s : str) : str := rstrip (lstrip s).

(** [sep.join(parts)] *)
Fixpoint join (sep : str) (parts : list str) : str :=
  match parts with
  | [] => []
  | [p] => p
  | p :: rest => p ++ sep ++ join sep rest
  end.

(** Truth value of a string: non-empty. *)
Definition truthy (s : str) : bool :=
  match s with [] => false | _ :: _ => true end.

(** [xs[:k]] for a sequence [xs] and an integer [k]: a negative stop
    counts from the end. *)
Definition slice_to {A} (k : Z) (xs : list A) : list A :=
  if (0 <=? k)%Z then firstn (Z.to_nat k) xs
  else firstn (length xs - Z.to_nat (- k)) xs.

End Py.

(** ** Song records *)

Record Song := mkSong {
  filename : option Py.str;
  lyrics : option (list Py.str)
}.

(** [song.get('lyrics', [])] *)
Definition get_lyrics (song : Song) : list Py.str :=
  match lyrics song with Some l => l | None => [] end.

(** [song.get('filename', 'Unknown')] *)
Definition get_filename (song : Song) : Py.str :=
  match filename song with Some f => f | None => Py.lit "Unknown" end.

(** Truth value of the dict: it has at least one key. *)
Definition song_truthy (song : Song) : bool :=
  match filename song, lyrics song with
  | None, None => false
  | _, _ => true
  end.

(** ** [preprocess_songs] *)

(** [" ".join(song.get('lyrics', []))] *)
Definition lyrics_text (song : Song) : Py.str :=
  Py.join (Py.lit " ") (get_lyrics song).

(** The test [if lyrics_text.strip():] of the loop. *)
Definition embeddable (song : Song) : bool :=
  Py.truthy (Py.strip (lyrics_text song)).

(** One iteration of the [for song in songs] loop on the pair
    [(song_texts, song_names)]. *)
Definition preprocess_step (acc : list Py.str * list Py.str) (song : Song)
  : list Py.str * list Py.str :=
  let '(song_texts, song_names) := acc in
  let text := lyrics_text song in
  if Py.truthy (Py.strip text)
  then (song_texts ++ [text], song_names ++ [get_filename song])
  else (song_texts, song_names).

Definition preprocess_songs (songs : list Song) : list Py.str * list Py.str :=
  fold_left preprocess_step songs ([], []).

(** The records that survive preprocessing, in corpus order. *)
Definition survivors (songs : list Song) : list Song :=
  List.filter embeddable songs.

(** ** Outcomes of calls that can raise *)

Inductive PyExn := ValueError | IndexError.

Inductive Outcome (A : Type) :=
| Returned (a : A)
| Raised (e : PyExn).
Arguments Returned {A} a.
Arguments Raised {A} e.

Definition obind {A B} (o : Outcome A) (k : A -> Outcome B) : Outcome B :=
  match o with
  | Returned a => k a
  | Raised e => Raised e
  end.

(** [xs[i]] for a non-negative index. *)
Definition getitem {A} (xs : list A) (i : nat) : Outcome A :=
  match nth_error xs i with
  | Some x => Returned x
  | None => Raised IndexError
  end.

(** ** Numeric kernel: rounding, cosine similarity, argsort *)

Local Open Scope Q_scope.

(** [numpy.rint]: the nearest integer, a tie going to the even one. *)
Definition rint (x : Q) : Z :=
  let f := Qfloor x in
  match Qcompare (x - inject_Z f) (1 # 2) with
  | Lt => f
  | Gt => (f + 1)%Z
  | Eq => if Z.even f then f else (f + 1)%Z
  end.

(** [round(x, decimals)] on a numpy float: scale by a power of ten, take
    [rint], scale back.  The float is read as the rational it stands
    for and the scaling is exact, so the last digit can differ from the
    float32 result; the development uses only that rounding is
    monotone. *)
Definition np_round (x : Q) (decimals : nat) : Q :=
  let scale := inject_Z (10 ^ Z.of_nat decimals) in
  inject_Z (rint (x * scale)) / scale.

(** The arithmetic the float library supplies beyond the field
    operations: a square root, and the threshold [tiny] (ten machine
    epsilons) under which scikit-learn treats a scale as zero. *)
Class FloatLib := {
  fsqrt : Q -> Q;
  tiny : Q;
  fsqrt_zero : forall x, x == 0 -> fsqrt x == 0;
  fsqrt_pos : forall x, 0 < x -> 0 < fsqrt x;
  tiny_pos : 0 < tiny
}.

Section Sklearn.
Context `{FloatLib}.

(** Inner product of two rows of the same width. *)
Fixpoint dot (u v : list Q) : Q :=
  match u, v with
  | x :: u', y :: v' => x * y + dot u' v'
  | _, _ => 0
  end.

(** [row_norms(X)] for one row. *)
Definition row_norm (v : list Q) : Q := fsqrt (dot v v).

(** [_handle_zeros_in_scale]: a scale below [tiny] becomes 1. *)
Definition handle_zeros_in_scale (scale : Q) : Q :=
  if Qlt_le_dec scale tiny then 1 else scale.

(** [normalize(X)] with the l2 norm, one row. *)
Definition normalize_row (v : list Q) : list Q :=
  let n := handle_zeros_in_scale (row_norm v) in
  List.map (fun x => x / n) v.

(** The shape of a matrix given as its rows: the rows share one width. *)
Definition has_width (d : nat) (X : list (list Q)) : bool :=
  forallb (fun r => Nat.eqb (length r) d) X.

(** [check_pairwise_arrays]: both arguments hold at least one sample and
    one feature, and agree on the number of features. *)
Definition check_pairwise_arrays (X Y : list (list Q)) : Outcome unit :=
  match X, Y with
  | x :: _, _ :: _ =>
      let d := length x in
      if negb (Nat.eqb d 0) && has_width d X && has_width d Y
      then Returned tt else Raised ValueError
  | _, _ => Raised ValueError
  end.

(** [cosine_similarity(X, Y)]: normalise the rows of both arguments and
    multiply [X] by the transpose of [Y]. *)
Definition cosine_similarity (X Y : list (list Q)) : Outcome (list (list Q)) :=
  obind (check_pairwise_arrays X Y) (fun _ =>
  let Xn := List.map normalize_row X in
  let Yn := List.map normalize_row Y in
  Returned (List.map (fun x => List.map (fun y => dot x y) Yn) Xn)).

End Sklearn.

(** [numpy.argsort] as its documentation specifies it: the indices that
    sort the array into ascending order.  The default sorting kind makes
    no promise on the order of equal elements. *)
Class ArgSort := {
  argsort : list Q -> list nat;
  argsort_perm : forall a, Permutation (argsort a) (seq 0 (length a));
  argsort_sorted :
    forall a, StronglySorted (fun i j => nth i a 0 <= nth j a 0) (argsort a)
}.

(** One sort that meets the interface, used to run the examples: an
    insertion sort on the index array, an index moving left only past
    strictly greater values.  It is stable; numpy's default kind need not
    be, so the code's order of equal scores can differ from this
    instance's. *)
Fixpoint insert_index (a : list Q) (vi : nat) (tosort : list nat) : list nat :=
  match tosort with
  | [] => [vi]
  | j :: rest =>
      if Qle_bool (nth j a 0) (nth vi a 0)
      then j :: insert_index a vi rest
      else vi :: tosort
  end.

Definition insertion_argsort (a : list Q) : list nat :=
  fold_left (fun tosort vi => insert_index a vi tosort) (seq 0 (length a)) [].

(** A square root on rationals, rounded up at 24 fractional bits. *)
Definition sqrt_up24 (x : Q) : Q :=
  Qmake (Z.sqrt_up (Qnum x * Zpos (Qden x) * 4 ^ 24))
        (Qden x * 2 ^ 24).

Local Close Scope Q_scope.

(** ** The embedding model, the cache and the trace *)

(** A loaded sentence-transformer: every text is mapped to a vector of
    the model's embedding dimension.  [model.encode(texts)] embeds the
    texts one by one, in order. *)
Record Model := mkModel {
  dim : nat;
  embed : Py.str -> list Q;
  dim_pos : dim <> 0;
  embed_dim : forall text, length (embed text) = dim
}.

Definition encode (m : Model) (texts : list Py.str) : list (list Q) :=
  List.map (embed m) texts.

Record Recommendation := mkRecommendation {
  rec_filename : Py.str;
  rec_lyrics : list Py.str;
  similarity_score : Q
}.

(** What [main] shows through [st.error]. *)
Inductive ErrorMessage :=
| LoadFailed            (* "Kon nie lieddata of AI model laai nie. ..." *)
| NoRecommendations     (* "Geen aanbevelings gevind. ..." *)
| RequestFailed (e : PyExn).

(** The observable calls: those to the embedding model, told apart by
    call site, and the messages shown to the user. *)
Inductive Event :=
| EncodeCorpus (song_texts : list Py.str)
| EncodeQuery (sermon_text : Py.str)
| StError (msg : ErrorMessage)
| StWarning
| StSongsLoaded (n : nat)
| StRecommendations (recs : list Recommendation)
| StRecommended (n : nat).

(** The process-wide state: the store of [st.cache_resource] for
    [get_song_embeddings], keyed by the hashed argument [song_texts] (the
    argument [_model] is excluded from the key by its underscore), and the
    trace of events so far.  The stored value is the first component of
    the returned pair. *)
Record World := mkWorld {
  embeddings_cache : gmap (list Py.str) (option (list (list Q)));
  trace : list Event
}.

Definition App (A : Type) : Type := World -> Outcome A * World.

Definition ret {A} (a : A) : App A := fun w => (Returned a, w).

Definition bind {A B} (c : App A) (k : A -> App B) : App B :=
  fun w =>
    match c w with
    | (Returned a, w') => k a w'
    | (Raised e, w') => (Raised e, w')
    end.

#[global] Instance App_ret : MRet App := @ret.
#[global] Instance App_bind : MBind App := fun A B k c => bind c k.

Definition emit (e : Event) : App unit :=
  fun w => (Returned tt, mkWorld (embeddings_cache w) (trace w ++ [e])).

Definition lift {A} (o : Outcome A) : App A := fun w => (o, w).

(** [try: body except Exception as e: handler(e)] *)
Definition try_except {A} (body : App A) (handler : PyExn -> App A) : App A :=
  fun w =>
    match body w with
    | (Returned a, w') => (Returned a, w')
    | (Raised e, w') => handler e w'
    end.

(** The decorator [@st.cache_resource] on a function of the key: a stored
    value is returned as it is; otherwise the body runs and its returned
    value is stored.  A raised exception stores nothing. *)
Definition cache_resource (key : list Py.str)
    (body : App (option (list (list Q)))) : App (option (list (list Q))) :=
  fun w =>
    match embeddings_cache w !! key with
    | Some v => (Returned v, w)
    | None =>
        match body w with
        | (Returned v, w') =>
            (Returned v, mkWorld (<[key := v]> (embeddings_cache w')) (trace w'))
        | (Raised e, w') => (Raised e, w')
        end
    end.

(** ** [get_song_embeddings] *)

Definition get_song_embeddings_body (song_texts : list Py.str)
    (_model : option Model) : App (option (list (list Q))) :=
  match _model, song_texts with
  | None, _ => ret None
  | Some _, [] => ret None
  | Some m, _ :: _ =>
      emit (EncodeCorpus song_texts) ;;
      ret (Some (encode m song_texts))
  end.

Definition get_song_embeddings (song_texts : list Py.str)
    (_model : option Model) : App (option (list (list Q))) :=
  cache_resource song_texts (get_song_embeddings_body song_texts _model).

(** ** [get_recommendations_fast] *)

(** [next((s for s in songs if s.get('filename') == song_name), None)] *)
Definition find_song (songs : list Song) (song_name : Py.str) : option Song :=
  List.find (fun s => bool_decide (filename s = Some song_name)) songs.

(** The body of [for idx in top_indices]: the recommendation appended for
    [idx], if any. *)
Definition recommend_one (songs : list Song) (song_names : list Py.str)
    (similarities : list Q) (idx : nat) : Outcome (option Recommendation) :=
  obind (getitem song_names idx) (fun song_name =>
  obind (getitem similarities idx) (fun score =>
  match find_song songs song_name with
  | Some song_data =>
      if song_truthy song_data
      then Returned (Some (mkRecommendation song_name (get_lyrics song_data)
                                            (np_round score 3)))
      else Returned None
  | None => Returned None
  end)).

Fixpoint recommend_loop (songs : list Song) (song_names : list Py.str)
    (similarities : list Q) (top_indices : list nat)
    (recommendations : list Recommendation) : Outcome (list Recommendation) :=
  match top_indices with
  | [] => Returned recommendations
  | idx :: rest =>
      obind (recommend_one songs song_names similarities idx) (fun r =>
      recommend_loop songs song_names similarities rest
        match r with
        | Some rec => recommendations ++ [rec]
        | None => recommendations
        end)
  end.

Section Engine.
Context {FL : FloatLib} {AS : ArgSort}.

(** [np.argsort(similarities)[::-1][:top_k]] *)
Definition top_indices_of (similarities : list Q) (top_k : Z) : list nat :=
  Py.slice_to top_k (rev (argsort similarities)).

Definition get_recommendations_fast (sermon_text : Py.str) (songs : list Song)
    (_model : option Model) (top_k : Z) : App (list Recommendation) :=
  match _model, songs with
  | None, _ => ret []
  | Some _, [] => ret []
  | Some m, _ :: _ =>
      let '(song_texts, song_names) := preprocess_songs songs in
      match song_texts with
      | [] => ret []
      | _ :: _ =>
          song_embeddings ← get_song_embeddings song_texts _model;
          match song_embeddings with
          | None => ret []
          | Some embeddings =>
              emit (EncodeQuery sermon_text) ;;
              let sermon_embedding := encode m [sermon_text] in
              rows ← lift (cosine_similarity sermon_embedding embeddings);
              similarities ← lift (getitem rows 0);
              let top_indices := top_indices_of similarities top_k in
              lift (recommend_loop songs song_names similarities top_indices [])
          end
      end
  end.

(** The legacy entry point. *)
Definition get_recommendations (sermon_text : Py.str) (songs : list Song)
    (_model : option Model) (top_k : Z) : App (list Recommendation) :=
  get_recommendations_fast sermon_text songs _model top_k.

(** [main]: one run of the script.  [songs_data] and [model] are what
    [load_songs_data()] and [initialize_model()] returned ([[]] and [None]
    on failure), [sermon_text] is the content of the text area and
    [clicked] the value of [st.button]. *)
Definition main (songs_data : list Song) (model : option Model)
    (sermon_text : Py.str) (clicked : bool) : App unit :=
  match songs_data, model with
  | _ :: _, Some _ =>
      let '(song_texts, _) := preprocess_songs songs_data in
      get_song_embeddings song_texts model ;;
      emit (StSongsLoaded (length songs_data)) ;;
      if clicked then
        if negb (Py.truthy sermon_text) || negb (Py.truthy (Py.strip sermon_text))
        then emit StWarning
        else
          try_except
            (recommendations ←
               get_recommendations_fast (Py.strip sermon_text) songs_data model 5;
             match recommendations with
             | [] => emit (StError NoRecommendations)
             | _ :: _ =>
                 emit (StRecommendations recommendations) ;;
                 emit (StRecommended (length recommendations))
             end)
            (fun e => emit (StError (RequestFailed e)))
      else ret tt
  | _, _ => emit (StError LoadFailed)
  end.

End Engine.

(** ** Derived notions used to state the properties

    What one request computes and what it leaves behind, written as
    functions of the corpus; the lemmas of Part II relate them to the
    code above. *)

(** The recommendation built for a name and a score: the lookup of the
    record and the dict literal of the loop body. *)
Definition emitted (songs : list Song) (song_name : Py.str) (score : Q)
  : option Recommendation :=
  match find_song songs song_name with
  | Some song_data =>
      if song_truthy song_data
      then Some (mkRecommendation song_name (get_lyrics song_data) (np_round score 3))
      else None
  | None => None
  end.

(** The recommendation for a ranked index, when the index is in range. *)
Definition emitted_at (songs : list Song) (names : list Py.str) (sims : list Q)
    (idx : nat) : option Recommendation :=
  emitted songs (nth idx names []) (nth idx sims 0%Q).

(** What [get_song_embeddings] returns for a key under model [m]. *)
Definition expected_embeddings (m : Model) (song_texts : list Py.str)
  : option (list (list Q)) :=
  match song_texts with
  | [] => None
  | _ :: _ => Some (encode m song_texts)
  end.

(** The cache holds only what [get_song_embeddings] stored under [m]. *)
Definition cache_consistent (m : Model) (w : World) : Prop :=
  forall song_texts v,
    embeddings_cache w !! song_texts = Some v -> v = expected_embeddings m song_texts.

Definition fresh : World := mkWorld ∅ [].

(** The world after [get_song_embeddings song_texts (Some m)]. *)
Definition after_embeddings (m : Model) (song_texts : list Py.str) (w : World) : World :=
  match embeddings_cache w !! song_texts with
  | Some _ => w
  | None =>
      mkWorld (<[song_texts := expected_embeddings m song_texts]> (embeddings_cache w))
              (match song_texts with
               | [] => trace w
               | _ :: _ => trace w ++ [EncodeCorpus song_texts]
               end)
  end.

Section Requests.
Context {FL : FloatLib} {AS : ArgSort}.

(** The scores of the prepared texts against a query. *)
Definition similarities_of (m : Model) (sermon_text : Py.str)
    (song_texts : list Py.str) : list Q :=
  List.map (fun t => dot (normalize_row (embed m sermon_text))
                         (normalize_row (embed m t))) song_texts.

(** The recommendations of one request, as a function of the corpus. *)
Definition ranking (m : Model) (sermon_text : Py.str) (songs : list Song)
    (top_k : Z) : list Recommendation :=
  let '(song_texts, song_names) := preprocess_songs songs in
  let sims := similarities_of m sermon_text song_texts in
  omap (emitted_at songs song_names sims) (top_indices_of sims top_k).

(** The world after one request on a corpus with embeddable text. *)
Definition after_request (m : Model) (sermon_text : Py.str) (songs : list Song)
    (w : World) : World :=
  let w1 := after_embeddings m (fst (preprocess_songs songs)) w in
  mkWorld (embeddings_cache w1) (trace w1 ++ [EncodeQuery sermon_text]).

(** The world one request leaves behind, whatever the cache held. *)
Definition world_after (sermon_text : Py.str) (songs : list Song)
    (_model : option Model) (w : World) : World :=
  match _model, survivors songs with
  | Some m, _ :: _ =>
      let song_texts := fst (preprocess_songs songs) in
      let w1 := after_embeddings m song_texts w in
      match embeddings_cache w !! song_texts with
      | Some None => w1
      | _ => mkWorld (embeddings_cache w1) (trace w1 ++ [EncodeQuery sermon_text])
      end
  | _, _ => w
  end.

Definition Request : Type := Py.str * list Song * option Model * Z.

(** Requests served one after the other on the same process state. *)
Definition run_requests (requests : list Request) (w : World) : World :=
  fold_left
    (fun w (r : Request) =>
       let '(sermon_text, songs, _model, top_k) := r in
       snd (get_recommendations_fast sermon_text songs _model top_k w))
    requests w.

End Requests.

(** [_model.encode(song_texts)] calls of [get_song_embeddings] on a given
    argument, counted in a trace. *)
Definition is_corpus_encoding (song_texts : list Py.str) (e : Event) : bool :=
  match e with
  | EncodeCorpus t => bool_decide (t = song_texts)
  | _ => false
  end.

Definition corpus_encodings (song_texts : list Py.str) (tr : list Event) : nat :=
  length (List.filter (is_corpus_encoding song_texts) tr).

(** Any call of the embedding model. *)
Definition is_encoding (e : Event) : bool :=
  match e with
  | EncodeCorpus _ | EncodeQuery _ => true
  | _ => false
  end.

Definition is_query_encoding (e : Event) : bool :=
  match e with
  | EncodeQuery _ => true
  | _ => false
  end.

(** Every batch embedding recorded in the trace left its entry in the
    cache, and none was recorded twice. *)
Definition embedded_once (w : World) : Prop :=
  forall t,
    corpus_encodings t (trace w) <= 1
    /\ (0 < corpus_encodings t (trace w) -> is_Some (embeddings_cache w !! t)).

Definition by_score_desc (r r' : Recommendation) : Prop :=
  (similarity_score r' <= similarity_score r)%Q.

(** The claim of C2 on the loop body: the recommendation appended for a
    ranked index carries the lyrics of the record behind that index. *)
Definition maps_back_to_source (songs : list Song) : Prop :=
  forall sims i rec s,
    recommend_one songs (snd (preprocess_songs songs)) sims i = Returned (Some rec) ->
    nth_error (survivors songs) i = Some s ->
    rec_lyrics rec = get_lyrics s.

(** The claim of C6 on a result: the record a recommendation took its
    lyrics from has text. *)
Definition sources_embeddable (songs : list Song) (recs : list Recommendation) : Prop :=
  forall rec song_data,
    In rec recs -> find_song songs (rec_filename rec) = Some song_data ->
    embeddable song_data = true.


(** Position in the corpus of the first record carrying a filename. *)
Fixpoint corpus_index (songs : list Song) (name : Py.str) : option nat :=
  match songs with
  | [] => None
  | s :: rest =>
      if bool_decide (filename s = Some name) then Some 0
      else option_map S (corpus_index rest name)
  end.

(** The tie rule of C1 on a result. *)
Definition ties_to_lower_index (songs : list Song) (recs : list Recommendation) : Prop :=
  forall p p' r r' i i',
    p < p' -> nth_error recs p = Some r -> nth_error recs p' = Some r' ->
    (similarity_score r == similarity_score r')%Q ->
    corpus_index songs (rec_filename r) = Some i ->
    corpus_index songs (rec_filename r') = Some i' ->
    i < i'.

(** Ascending by value, equal values by ascending index: the order a
    stable sort produces. *)
Definition stable_before (a : list Q) (i j : nat) : Prop :=
  (nth i a 0 < nth j a 0)%Q \/ ((nth i a 0 == nth j a 0)%Q /\ i < j).

(** ** Sample data *)

Module Demo.

(** A two-dimensional embedding: the length of the text and a constant. *)
Definition model : Model := {|
  dim := 2;
  embed := fun text => [inject_Z (Z.of_nat (length text)); 1%Q];
  dim_pos := Nat.neq_succ_0 1;
  embed_dim := fun _ => eq_refl
|}.

Definition song (name : string) (lines : list string) : Song :=
  mkSong (Some (Py.lit name)) (Some (List.map Py.lit lines)).

(** Scenario A of the specification. *)
Definition scenario_a : list Song :=
  [song "song1" ["grace"; "amazing"]; song "song2" ["joy"; "peace"];
   song "song3" []]%string.

(** Two records with the same lyrics, hence the same score. *)
Definition twins : list Song :=
  [song "a" ["x"]; song "b" ["x"]]%string.

(** Two records under one filename. *)
Definition namesakes : list Song :=
  [song "a" ["x"]; song "a" ["y"]]%string.

(** A record without text ahead of a record of the same filename. *)
Definition shadowed : list Song :=
  [song "a" []; song "a" ["x"]]%string.


Definition query : Py.str := Py.lit "grace and amazing love".

(** The empty query. *)
Definition blank_query : Py.str := [].

End Demo.

(** ** Further sample data *)

Module More.

(** The state after [get_song_embeddings] was called on the texts of
    scenario A without a model. *)
Definition after_call_without_model : World :=
  snd (get_song_embeddings (fst (preprocess_songs Demo.scenario_a)) None fresh).


End More.

(** ** More of Python's strings *)

Module PyStr.

(** [s.endswith(suffix)] *)
Definition endswith (s suffix : Py.str) : bool :=
  bool_decide (skipn (length s - length suffix) s = suffix).

(** [s.startswith(prefix)] *)
Definition startswith (s prefix : Py.str) : bool :=
  bool_decide (firstn (length prefix) s = prefix).

(** [a <= b] on strings: lexicographic on code points. *)
Fixpoint le (a b : Py.str) : bool :=
  match a, b with
  | [], _ => true
  | _ :: _, [] => false
  | x :: a', y :: b' => (x <? y)%N || (x =? y)%N && le a' b'
  end.

(** [sorted(names)] *)
Definition sorted (names : list Py.str) : list Py.str :=
  merge_sort (fun a b => Is_true (le a b)) names.

(** [text.split('\n')]: the pieces between the separators; one piece
    more than there are separators. *)
Fixpoint split (sep : N) (text : Py.str) : list Py.str :=
  match text with
  | [] => [[]]
  | c :: rest =>
      if (c =? sep)%N then [] :: split sep rest
      else match split sep rest with
           | piece :: pieces => (c :: piece) :: pieces
           | [] => [[c]]
           end
  end.

End PyStr.

(** ** Files *)

(** What opening and reading a file gives: the file is missing, reading
    or decoding it raises, or it has a content. *)
Inductive File (A : Type) :=
| Missing
| Unreadable
| Content (a : A).
Arguments Missing {A}.
Arguments Unreadable {A}.
Arguments Content {A} a.

(** What writing a file does: the write completes, or it raises and
    leaves the file in some state (as it was when [open] raises,
    truncated or partly written when the failure comes later). *)
Inductive Write (A : Type) :=
| Done
| Failed (remains : File A).
Arguments Done {A}.
Arguments Failed {A} remains.

(** A file as an entry of a folder: absent, present without a readable
    content, or present with a content. *)
Definition entry {A} (f : File A) : option (option A) :=
  match f with
  | Missing => None
  | Unreadable => Some None
  | Content a => Some (Some a)
  end.

(** The files of [keep_only_relevant.py]: [Played.txt] as the lines
    [readlines()] returns, [combined_songs.json] and its backup
    [combined_songs.json.backup] as the list of records they hold; a
    JSON file that holds anything but a list of such records counts as
    unreadable, since the loop over it raises inside the same [try]. *)
Record Disk := mkDisk {
  played_txt : File (list Py.str);
  combined_songs : File (list Song);
  combined_songs_backup : File (list Song)
}.

(** ** [clean_played_file] *)

Definition extensions : list Py.str :=
  [Py.lit ".pdf"; Py.lit ".txt"; Py.lit ".json"].

(** The loop [for ext in [...]] with its [break]. *)
Fixpoint remove_extension (exts : list Py.str) (filename : Py.str) : Py.str :=
  match exts with
  | [] => filename
  | ext :: rest =>
      if PyStr.endswith filename ext
      then Py.slice_to (- Z.of_nat (length ext)) filename
      else remove_extension rest filename
  end.

(** One iteration of [for line in lines] on the pair
    [(unique_filenames, cleaned_lines)]. *)
Definition clean_step (acc : gset Py.str * list Py.str) (line : Py.str)
  : gset Py.str * list Py.str :=
  let '(unique_filenames, cleaned_lines) := acc in
  let filename := Py.strip line in
  if Py.truthy filename then
    let filename := remove_extension extensions filename in
    if bool_decide (filename ∈ unique_filenames)
    then (unique_filenames, cleaned_lines)
    else ({[filename]} ∪ unique_filenames, cleaned_lines ++ [filename])
  else (unique_filenames, cleaned_lines).

Definition clean_lines (lines : list Py.str) : gset Py.str * list Py.str :=
  fold_left clean_step lines (∅, []).

(** [clean_played_file()]: the returned set and the disk it leaves.
    [write_played] is what writing [Played.txt] back does; reading and
    writing are both inside the [try], whose handler returns [set()]. *)
Definition clean_played_file (write_played : Write (list Py.str)) (disk : Disk)
  : gset Py.str * Disk :=
  match played_txt disk with
  | Content lines =>
      let '(unique_filenames, cleaned_lines) := clean_lines lines in
      match write_played with
      | Done =>
          (unique_filenames,
           mkDisk (Content (List.map (fun filename => filename ++ [10%N])
                                     (PyStr.sorted cleaned_lines)))
                  (combined_songs disk) (combined_songs_backup disk))
      | Failed remains =>
          (∅, mkDisk remains (combined_songs disk) (combined_songs_backup disk))
      end
  | _ => (∅, disk)
  end.

(** ** [filter_songs_json] *)

(** [song.get('filename', '')] *)
Definition filename_or_empty (song : Song) : Py.str :=
  match filename song with Some f => f | None => [] end.

(** One iteration of [for song in songs] on the pair
    [(filtered_songs, removed_count)]. *)
Definition filter_step (played_filenames : gset Py.str)
    (acc : list Song * nat) (song : Song) : list Song * nat :=
  let '(filtered_songs, removed_count) := acc in
  let filename := filename_or_empty song in
  if bool_decide (filename ∈ played_filenames)
  then (filtered_songs ++ [song], removed_count)
  else (filtered_songs, S removed_count).

Definition filter_loop (played_filenames : gset Py.str) (songs : list Song)
  : list Song * nat :=
  fold_left (filter_step played_filenames) songs ([], 0).

Definition filter_songs (played_filenames : gset Py.str) (songs : list Song)
  : list Song :=
  fst (filter_loop played_filenames songs).

(** [filter_songs_json(played_filenames)]: the result and the disk it
    leaves. The backup is written first, then the corpus; both writes
    are inside the [try], whose handler returns [False]. *)
Definition filter_songs_json (played_filenames : gset Py.str)
    (write_backup write_songs : Write (list Song)) (disk : Disk)
  : bool * Disk :=
  match combined_songs disk with
  | Content songs =>
      let filtered_songs := filter_songs played_filenames songs in
      match write_backup with
      | Done =>
          match write_songs with
          | Done =>
              (true, mkDisk (played_txt disk) (Content filtered_songs) (Content songs))
          | Failed remains =>
              (false, mkDisk (played_txt disk) remains (Content songs))
          end
      | Failed remains =>
          (false, mkDisk (played_txt disk) (Content songs) remains)
      end
  | _ => (false, disk)
  end.

(** [main()] of [keep_only_relevant.py]. *)
Definition relevant_main (write_played : Write (list Py.str))
    (write_backup write_songs : Write (list Song)) (disk : Disk) : Disk :=
  let '(played_filenames, disk1) := clean_played_file write_played disk in
  if bool_decide (played_filenames = ∅) then disk1
  else snd (filter_songs_json played_filenames write_backup write_songs disk1).



(** The name a line of [Played.txt] stands for, if the line is not blank. *)
Definition played_name (line : Py.str) : option Py.str :=
  if Py.truthy (Py.strip line)
  then Some (remove_extension extensions (Py.strip line))
  else None.

(** A [Played.txt] with a repeated name, a name with two extensions, a
    blank line and a line that is only an extension; a corpus with a
    record that has no filename. *)
Module PlayedDemo.

Definition played_lines : list Py.str :=
  [Py.lit "b.pdf" ++ [10%N]; Py.lit "a.txt.pdf" ++ [10%N];
   Py.lit "b" ++ [10%N]; [10%N]; Py.lit ".pdf"].

Definition corpus : list Song :=
  [Demo.song "a.txt" ["x"]; Demo.song "c" ["y"];
   mkSong None (Some [Py.lit "z"]); Demo.song "b" ["w"]]%string.

Definition disk : Disk := mkDisk (Content played_lines) (Content corpus) Missing.

Definition blank_lines : list Py.str := [[10%N]; Py.lit "  " ++ [10%N]].

Definition blank_disk : Disk := mkDisk (Content blank_lines) (Content corpus) Missing.

End PlayedDemo.

(** ** [combine_jsons.py] *)

(** The folder [parsed_songs] as [glob('*.json')] lists it: for each file
    its stem and the object [json.load] gives, or [None] when reading or
    decoding the file raises. *)
Definition JsonFolder := list (Py.str * option Song).

(** The dict literal [simplified_song]:
    [song_data.get('filename', json_file.stem)] and
    [song_data.get('lyrics', [])]. *)
Definition simplified_song (stem : Py.str) (song_data : Song) : Song :=
  mkSong (Some (match filename song_data with Some f => f | None => stem end))
         (Some (get_lyrics song_data)).

(** One iteration of [for json_file in json_files] on [combined_data];
    a file that raises is skipped. *)
Definition combine_step (combined_data : list Song)
    (json_file : Py.str * option Song) : list Song :=
  match snd json_file with
  | Some song_data => combined_data ++ [simplified_song (fst json_file) song_data]
  | None => combined_data
  end.

(** [combine_json_files()]: [input_folder] is [None] when the folder does
    not exist; [write_output] is what saving [combined_songs.json] does,
    inside the last [try], whose handler returns [False]. *)
Definition combine_json_files (input_folder : option JsonFolder)
    (write_output : Write (list Song)) (disk : Disk) : bool * Disk :=
  match input_folder with
  | None => (false, disk)
  | Some [] => (false, disk)
  | Some json_files =>
      let combined_data := fold_left combine_step json_files [] in
      match write_output with
      | Done =>
          (true,
           mkDisk (played_txt disk) (Content combined_data)
                  (combined_songs_backup disk))
      | Failed remains =>
          (false, mkDisk (played_txt disk) remains (combined_songs_backup disk))
      end
  end.

(** A folder with an unreadable file, a file without the key
    ['filename'] and a file without the key ['lyrics']. *)
Module FolderDemo.

Definition json_files : JsonFolder :=
  [(Py.lit "a", Some (Demo.song "a" ["x"]%string));
   (Py.lit "broken", None);
   (Py.lit "b", Some (mkSong None (Some [Py.lit "y"])));
   (Py.lit "c", Some (mkSong (Some (Py.lit "c")) None))].

Definition unreadable_files : JsonFolder :=
  [(Py.lit "a", None); (Py.lit "b", None)].

End FolderDemo.

(** ** [parse_pdf.py] *)

(** *** The chord pattern

    [re.search(r'\b[A-G][#b]?(?:m|maj|min|dim|aug|sus)?[0-9]?\b', line)]
    on a [str]. A position is an index between two characters; each
    piece of the pattern maps a start position to the positions where a
    match of the piece can end, and the search succeeds when some start
    position has a match of the whole pattern. *)
Module Re.

Section Chord.

(** [str.isalnum] on the code points from 128 up: the part of [\w] that
    is a table of the Unicode database. *)
Variable unicode_alnum : N -> bool.

(** [\w]: alphanumeric or underscore. *)
Definition is_word (c : N) : bool :=
  if (c <? 128)%N
  then ((48 <=? c) && (c <=? 57) || (65 <=? c) && (c <=? 90)
        || (c =? 95) || (97 <=? c) && (c <=? 122))%N
  else unicode_alnum c.

Definition word_at (s : Py.str) (p : nat) : bool :=
  match nth_error s p with
  | Some c => is_word c
  | None => false
  end.

(** [\b] at position [p]: exactly one of the characters before and
    after [p] is a word character; outside the string counts as not a
    word character. *)
Definition boundary (s : Py.str) (p : nat) : bool :=
  xorb (match p with 0 => false | S q => word_at s q end) (word_at s p).

(** A character class given as a range, [[A-G]] or [[0-9]]. *)
Definition range (lo hi : N) (s : Py.str) (p : nat) : list nat :=
  match nth_error s p with
  | Some c => if ((lo <=? c) && (c <=? hi))%N then [S p] else []
  | None => []
  end.

(** A character class given as a set, [[#b]]. *)
Definition one_of (cs : list N) (s : Py.str) (p : nat) : list nat :=
  match nth_error s p with
  | Some c => if existsb (N.eqb c) cs then [S p] else []
  | None => []
  end.

(** A literal word. *)
Definition literal (w : Py.str) (s : Py.str) (p : nat) : list nat :=
  if bool_decide (firstn (length w) (skipn p s) = w) then [p + length w] else [].

(** [w1|w2|...] *)
Definition alternatives (ws : list Py.str) (s : Py.str) (p : nat) : list nat :=
  flat_map (fun w => literal w s p) ws.

(** [r?] *)
Definition optional (r : nat -> list nat) (p : nat) : list nat := r p ++ [p].

Definition qualities : list Py.str :=
  [Py.lit "m"; Py.lit "maj"; Py.lit "min"; Py.lit "dim"; Py.lit "aug"; Py.lit "sus"].

(** Where [[A-G][#b]?(?:m|maj|min|dim|aug|sus)?[0-9]?] can end when it
    starts at [p]. *)
Definition chord_ends (s : Py.str) (p : nat) : list nat :=
  flat_map (fun p1 =>
    flat_map (fun p2 =>
      flat_map (fun p3 => optional (range 48 57 s) p3)
               (optional (alternatives qualities s) p2))
             (optional (one_of [35%N; 98%N] s) p1))
           (range 65 71 s p).

(** The whole pattern matches from position [p]. *)
Definition match_at (s : Py.str) (p : nat) : bool :=
  boundary s p && existsb (boundary s) (chord_ends s p).

(** [re.search(pattern, s)] is not [None]. *)
Definition search (s : Py.str) : bool :=
  existsb (match_at s) (seq 0 (S (length s))).

End Chord.

End Re.

(** *** The parser *)

(** What importing a PDF library and reading a file with it gives: the
    import fails, the library raises, or it returns the texts of the
    pages. *)
Inductive Library (A : Type) :=
| NotInstalled
| Raises
| Returns (a : A).
Arguments NotInstalled {A}.
Arguments Raises {A}.
Arguments Returns {A} a.

Module PDFParser.

(** The dict [song_data]; ['metadata'] is an object that stays empty. *)
Record SongData := mkSongData {
  filename : Py.str;
  title : Py.str;
  artist : Py.str;
  lyrics : list Py.str;
  chords : list Py.str;
  metadata : list (Py.str * Py.str);
  raw_text : Py.str
}.

(** A PDF file: its stem, what the two libraries give for it
    ([page.extract_text()] of pdfplumber may return [None]) and what
    writing its JSON file does. *)
Record Pdf := mkPdf {
  stem : Py.str;
  pdfplumber : Library (list (option Py.str));
  pypdf2 : Library (list Py.str);
  save : Write SongData
}.

(** The dict [process_all_pdfs] returns. *)
Record Counts := mkCounts {
  processed : nat;
  failed : nat;
  total : nat
}.

(** One iteration of [for page in pdf.pages] with pdfplumber. *)
Definition plumber_step (text : Py.str) (page_text : option Py.str) : Py.str :=
  match page_text with
  | Some t => if Py.truthy t then text ++ t ++ [10%N] else text
  | None => text
  end.

(** One iteration of [for page in pdf_reader.pages] with PyPDF2. *)
Definition pypdf2_step (text : Py.str) (page_text : Py.str) : Py.str :=
  text ++ page_text ++ [10%N].

Definition extract_text_from_pdf (pdf : Pdf) : option Py.str :=
  match pdfplumber pdf with
  | Returns pages => Some (Py.strip (fold_left plumber_step pages []))
  | Raises => None
  | NotInstalled =>
      match pypdf2 pdf with
      | Returns pages => Some (Py.strip (fold_left pypdf2_step pages []))
      | Raises => None
      | NotInstalled => None
      end
  end.

(** [line.startswith('©') or line.startswith('Chords:')] *)
Definition is_metadata (line : Py.str) : bool :=
  PyStr.startswith line [169%N] || PyStr.startswith line (Py.lit "Chords:").

(** The lines the second loop does not skip, trimmed: not blank and not
    metadata. *)
Definition kept_lines (text : Py.str) : list Py.str :=
  List.filter (fun line => Py.truthy line && negb (is_metadata line))
              (List.map Py.strip (PyStr.split 10 text)).

(** [save_to_json(song_data, output_path)] on the folder
    [parsed_songs]; the folder maps the stem of each of its JSON files
    to the object in the file, [None] for a file without a readable
    object. A failed write is caught and logged; nothing is returned
    either way. *)
Definition save_to_json (song_data : SongData) (output_stem : Py.str)
    (write : Write SongData) (output_folder : gmap Py.str (option SongData))
  : gmap Py.str (option SongData) :=
  match write with
  | Done => <[output_stem := Some song_data]> output_folder
  | Failed remains =>
      partial_alter (fun _ => entry remains) output_stem output_folder
  end.

Section Parser.

Variable unicode_alnum : N -> bool.

(** The first loop, with its [break]: the value ['title'] ends with. *)
Fixpoint find_title (lines : list Py.str) : Py.str :=
  match lines with
  | [] => []
  | line :: rest =>
      let line := Py.strip line in
      if Py.truthy line && negb (PyStr.startswith line [169%N])
         && negb (PyStr.startswith line (Py.lit "Chords:"))
      then line
      else find_title rest
  end.

(** One iteration of the second loop on the pair [(lyrics, chords)]. *)
Definition classify_step (acc : list Py.str * list Py.str) (line : Py.str)
  : list Py.str * list Py.str :=
  let '(lyrics, chords) := acc in
  let line := Py.strip line in
  if negb (Py.truthy line) then (lyrics, chords)
  else if is_metadata line then (lyrics, chords)
  else if Re.search unicode_alnum line then (lyrics, chords ++ [line])
  else (lyrics ++ [line], chords).

Definition parse_song_content (text : Py.str) (filename : Py.str) : SongData :=
  if negb (Py.truthy text) then mkSongData filename [] [] [] [] [] text
  else
    let lines := PyStr.split 10 text in
    let title := find_title lines in
    let '(lyrics, chords) := fold_left classify_step lines ([], []) in
    mkSongData filename title [] lyrics chords [] text.

(** [process_pdf]: the result and the folder [parsed_songs] it leaves.
    The result is [True] once the text is extracted, whether the save
    completes or not. *)
Definition process_pdf (pdf : Pdf) (output_folder : gmap Py.str (option SongData))
  : bool * gmap Py.str (option SongData) :=
  match extract_text_from_pdf pdf with
  | None => (false, output_folder)
  | Some text =>
      let song_data := parse_song_content text (stem pdf) in
      (true, save_to_json song_data (stem pdf) (save pdf) output_folder)
  end.

(** One iteration of [for pdf_file in pdf_files] on
    [(processed, failed)] and the output folder. *)
Definition process_step (acc : nat * nat * gmap Py.str (option SongData))
    (pdf_file : Pdf) : nat * nat * gmap Py.str (option SongData) :=
  let '(processed, failed, output_folder) := acc in
  let '(ok, output_folder) := process_pdf pdf_file output_folder in
  if ok then (S processed, failed, output_folder)
  else (processed, S failed, output_folder).

(** [process_all_pdfs]: [input_folder] is [None] when the folder does
    not exist, otherwise what [glob('*.pdf')] lists. *)
Definition process_all_pdfs (input_folder : option (list Pdf))
    (output_folder : gmap Py.str (option SongData))
  : Counts * gmap Py.str (option SongData) :=
  match input_folder with
  | None => (mkCounts 0 0 0, output_folder)
  | Some [] => (mkCounts 0 0 0, output_folder)
  | Some pdf_files =>
      let '(processed, failed, output_folder) :=
        fold_left process_step pdf_files (0, 0, output_folder) in
      (mkCounts processed failed (length pdf_files), output_folder)
  end.

End Parser.

(** The object [json.load] gives for a file [save_to_json] wrote, as
    [combine_jsons.py] and [recommend_songs.py] read it: the keys
    ['filename'] and ['lyrics']. *)
Definition saved (song_data : SongData) : Song :=
  mkSong (Some (filename song_data)) (Some (lyrics song_data)).

End PDFParser.

(** Word characters restricted to ASCII, and a text with a title, a
    chord line, a blank line, a metadata line and a lyrics line; a
    scanned PDF, whose pages have no text; a PDF that cannot be read and
    one whose JSON file cannot be written. *)
Module PdfDemo.

Definition ascii_only (c : N) : bool := false.

Definition text : Py.str :=
  Py.lit "Title here" ++ [10%N] ++ Py.lit "  Am G " ++ [10%N] ++ [10%N]
  ++ Py.lit "Chords: x" ++ [10%N] ++ Py.lit "lyric one" ++ [10%N].

Definition one_page : PDFParser.Pdf :=
  PDFParser.mkPdf (Py.lit "hymn") (Returns [Some text]) NotInstalled Done.

Definition scan : PDFParser.Pdf :=
  PDFParser.mkPdf (Py.lit "scan") (Returns [None; Some []; Some (Py.lit "  ")])
                  NotInstalled Done.

Definition damaged : PDFParser.Pdf :=
  PDFParser.mkPdf (Py.lit "damaged") Raises NotInstalled Done.

Definition unsaved : PDFParser.Pdf :=
  PDFParser.mkPdf (Py.lit "unsaved") (Returns [Some text]) NotInstalled
                  (Failed Unreadable).

End PdfDemo.

(** * Part II: lemmas

    ** Strings and preprocessing *)

Lemma lstrip_nil_iff s : Py.lstrip s = [] <-> forallb Py.isspace s = true.
Proof.
  induction s as [|c s IH]; simpl; [tauto|].
  destruct (Py.isspace c); simpl; [exact IH|]. split; discriminate.
Qed.

Lemma lstrip_suffix s : exists pre, s = pre ++ Py.lstrip s /\ forallb Py.isspace pre = true.
Proof.
  induction s as [|c s (pre & E & W)]; simpl.
  - exists []. auto.
  - destruct (Py.isspace c) eqn:Hc.
    + exists (c :: pre). simpl. rewrite Hc, W. split; [congruence|reflexivity].
    + exists []. auto.
Qed.

(** A string is empty after trimming exactly when it consists of
    whitespace only. *)
Lemma strip_nil_iff s : Py.strip s = [] <-> forallb Py.isspace s = true.
Proof.
  unfold Py.strip, Py.rstrip. split.
  - intros H. apply (f_equal (@rev N)) in H. rewrite rev_involutive in H.
    simpl in H. apply lstrip_nil_iff in H.
    destruct (lstrip_suffix s) as (pre & E & W).
    rewrite E, forallb_app, W. simpl.
    rewrite forallb_forall in *. intros x Hx. apply H, in_rev.
    rewrite rev_involutive. exact Hx.
  - intros H.
    assert (E : Py.lstrip s = []) by (apply lstrip_nil_iff; exact H).
    rewrite E. reflexivity.
Qed.

Lemma preprocess_fold songs texts names :
  fold_left preprocess_step songs (texts, names) =
  (texts ++ List.map lyrics_text (survivors songs),
   names ++ List.map get_filename (survivors songs)).
Proof.
  revert texts names. induction songs as [|s songs IH]; intros texts names; simpl.
  - now rewrite !app_nil_r.
  - unfold survivors in *. simpl.
    change (Py.truthy (Py.strip (lyrics_text s))) with (embeddable s).
    destruct (embeddable s); simpl.
    + rewrite IH, <- !app_assoc. reflexivity.
    + apply IH.
Qed.

Lemma preprocess_songs_eq songs :
  preprocess_songs songs =
  (List.map lyrics_text (survivors songs), List.map get_filename (survivors songs)).
Proof. unfold preprocess_songs. now rewrite preprocess_fold. Qed.

Lemma survivors_sublist songs : sublist (survivors songs) songs.
Proof.
  induction songs as [|s songs IH]; unfold survivors in *; simpl.
  - constructor.
  - destruct (embeddable s); now constructor.
Qed.

Lemma embeddable_iff song :
  embeddable song = true <-> Py.strip (lyrics_text song) <> [].
Proof.
  unfold embeddable. destruct (Py.strip (lyrics_text song)); simpl; split;
    congruence.
Qed.

Lemma survivors_In songs s : In s (survivors songs) -> In s songs /\ embeddable s = true.
Proof. unfold survivors. apply filter_In. Qed.

Lemma survivors_of_blank songs :
  survivors (List.filter (fun s => negb (embeddable s)) songs) = [].
Proof.
  unfold survivors. induction songs as [|s songs IH]; simpl; [reflexivity|].
  destruct (embeddable s) eqn:E; simpl; [exact IH|]. now rewrite E.
Qed.

Lemma prepared_texts_nonblank songs :
  Forall (fun t => Py.strip t <> []) (fst (preprocess_songs songs)).
Proof.
  rewrite preprocess_songs_eq. cbn [fst]. apply Forall_map, Forall_forall.
  intros s Hs. apply list_elem_of_In, survivors_In in Hs as [_ Hs].
  apply embeddable_iff, Hs.
Qed.

(** ** The instances of the library interfaces *)

Lemma sqrt_up24_zero x : (x == 0)%Q -> (sqrt_up24 x == 0)%Q.
Proof.
  unfold Qeq, sqrt_up24. simpl. intros E.
  assert (Qnum x = 0%Z) as -> by lia. reflexivity.
Qed.

Lemma sqrt_up24_pos x : (0 < x)%Q -> (0 < sqrt_up24 x)%Q.
Proof.
  unfold Qlt, sqrt_up24. simpl. intros Hx.
  rewrite Z.mul_1_r in *. apply Z.sqrt_up_pos. lia.
Qed.

#[export] Instance float32_lib : FloatLib := {|
  fsqrt := sqrt_up24;
  tiny := 10 # (2 ^ 23);
  fsqrt_zero := sqrt_up24_zero;
  fsqrt_pos := sqrt_up24_pos;
  tiny_pos := eq_refl
|}.

Section InsertionSort.
Variable a : list Q.

Let key (i : nat) : Q := nth i a 0%Q.
Let le_at (i j : nat) : Prop := (key i <= key j)%Q.

Lemma insert_index_perm vi tosort :
  Permutation (insert_index a vi tosort) (vi :: tosort).
Proof.
  induction tosort as [|j rest IH]; simpl; [reflexivity|].
  destruct (Qle_bool _ _); [|reflexivity].
  rewrite IH. apply perm_swap.
Qed.

Lemma insert_index_sorted vi tosort :
  StronglySorted le_at tosort -> StronglySorted le_at (insert_index a vi tosort).
Proof.
  induction 1 as [|j rest Hs IH Hall]; simpl.
  - repeat constructor.
  - destruct (Qle_bool (nth j a 0%Q) (nth vi a 0%Q)) eqn:E.
    + apply Qle_bool_iff in E. constructor; [exact IH|].
      eapply Permutation_Forall; [symmetry; apply insert_index_perm|].
      constructor; assumption.
    + assert (Hlt : (key vi < key j)%Q).
      { apply Qnot_le_lt. intros C. apply Qle_bool_iff in C.
        unfold key in C. congruence. }
      constructor; [constructor; assumption|].
      constructor; [apply Qlt_le_weak, Hlt|].
      eapply Forall_impl; [exact Hall|]. intros k Hk. unfold le_at in *.
      eapply Qle_trans; [apply Qlt_le_weak, Hlt|exact Hk].
Qed.

Lemma insertion_fold_perm xs acc :
  Permutation (fold_left (fun tosort vi => insert_index a vi tosort) xs acc)
              (acc ++ xs).
Proof.
  revert acc. induction xs as [|x xs IH]; intros acc; simpl.
  - now rewrite app_nil_r.
  - rewrite IH, insert_index_perm. apply Permutation_middle.
Qed.

Lemma insertion_fold_sorted xs acc :
  StronglySorted le_at acc ->
  StronglySorted le_at
    (fold_left (fun tosort vi => insert_index a vi tosort) xs acc).
Proof.
  revert acc. induction xs as [|x xs IH]; intros acc Hacc; simpl; [exact Hacc|].
  apply IH, insert_index_sorted, Hacc.
Qed.

End InsertionSort.

#[export] Instance insertion_sort : ArgSort := {|
  argsort := insertion_argsort;
  argsort_perm := fun a => insertion_fold_perm a (seq 0 (length a)) [];
  argsort_sorted := fun a =>
    insertion_fold_sorted a (seq 0 (length a)) [] (SSorted_nil _)
|}.

(** The insertion sort is stable. *)
Section Stability.
Variable a : list Q.

Lemma insert_index_stable vi tosort :
  Forall (fun j => j < vi) tosort ->
  StronglySorted (stable_before a) tosort ->
  StronglySorted (stable_before a) (insert_index a vi tosort).
Proof.
  intros Hlt Hs. induction Hs as [|j rest Hs IH Hall]; simpl.
  - repeat constructor.
  - apply Forall_cons in Hlt as [Hj Hrest].
    destruct (Qle_bool (nth j a 0%Q) (nth vi a 0%Q)) eqn:E.
    + apply Qle_bool_iff in E. constructor; [apply IH, Hrest|].
      eapply Permutation_Forall; [symmetry; apply insert_index_perm|].
      constructor; [|exact Hall].
      unfold stable_before. apply Qle_lteq in E as [E|E]; auto.
    + assert (Hv : (nth vi a 0 < nth j a 0)%Q).
      { apply Qnot_le_lt. intros C. apply Qle_bool_iff in C. congruence. }
      constructor; [constructor; assumption|].
      constructor; [left; exact Hv|].
      eapply Forall_impl; [exact Hall|]. intros k [Hk|[Hk _]]; left.
      * eapply Qlt_trans; eassumption.
      * now rewrite <- Hk.
Qed.

Lemma insertion_fold_stable n s acc :
  Forall (fun j => j < s) acc ->
  StronglySorted (stable_before a) acc ->
  StronglySorted (stable_before a)
    (fold_left (fun tosort vi => insert_index a vi tosort) (seq s n) acc).
Proof.
  revert s acc. induction n as [|n IH]; intros s acc Hlt Hs; simpl; [exact Hs|].
  apply IH.
  - eapply Permutation_Forall; [symmetry; apply insert_index_perm|].
    constructor; [lia|]. eapply Forall_impl; [exact Hlt|]. simpl. lia.
  - apply insert_index_stable; assumption.
Qed.

Lemma insertion_argsort_stable :
  StronglySorted (stable_before a) (insertion_argsort a).
Proof. apply insertion_fold_stable; constructor. Qed.

End Stability.

(** ** The numeric kernel *)

Section KernelFacts.
Context {FL : FloatLib}.
Local Open Scope Q_scope.

Lemma Qsquare_nonneg (x : Q) : 0 <= x * x.
Proof. unfold Qle, Qmult. simpl. nia. Qed.

Lemma Qsquare_zero (x : Q) : x * x <= 0 -> x == 0.
Proof. unfold Qle, Qmult, Qeq. simpl. nia. Qed.

Lemma dot_self_nonneg v : 0 <= dot v v.
Proof.
  induction v as [|x v IH]; simpl; [apply Qle_refl|].
  pose proof (Qsquare_nonneg x). lra.
Qed.

Lemma dot_self_zero v : dot v v <= 0 -> Forall (fun x => x == 0) v.
Proof.
  induction v as [|x v IH]; simpl; intros Hle; constructor.
  - apply Qsquare_zero. pose proof (dot_self_nonneg v). lra.
  - apply IH. pose proof (Qsquare_nonneg x). lra.
Qed.

Lemma dot_zero_r u v : Forall (fun x => x == 0) v -> dot u v == 0.
Proof.
  intros Hv. revert u. induction Hv as [|y v Hy _ IH]; intros [|x u]; simpl;
    try reflexivity.
  rewrite IH, Hy. ring.
Qed.

Lemma dot_zero_l u v : Forall (fun x => x == 0) u -> dot u v == 0.
Proof.
  intros Hu. revert v. induction Hu as [|x u Hx _ IH]; intros [|y v]; simpl;
    try reflexivity.
  rewrite IH, Hx. ring.
Qed.

(** In exact arithmetic only the zero vector has norm zero. *)
Lemma zero_norm_zero_row v : row_norm v == 0 -> Forall (fun x => x == 0) v.
Proof.
  unfold row_norm. intros Hn. apply dot_self_zero, Qnot_lt_le. intros Hpos.
  apply fsqrt_pos in Hpos. lra.
Qed.

Lemma normalize_zero_row v :
  Forall (fun x => x == 0) v -> Forall (fun x => x == 0) (normalize_row v).
Proof.
  unfold normalize_row. intros Hv. apply Forall_map.
  eapply Forall_impl; [exact Hv|]. intros x Hx. simpl. rewrite Hx.
  unfold Qdiv. ring.
Qed.

(** A zero-norm row is left as it is by [normalize]: its scale is 1. *)
Lemma zero_norm_scale v : row_norm v == 0 -> handle_zeros_in_scale (row_norm v) = 1.
Proof.
  intros Hn. unfold handle_zeros_in_scale.
  destruct (Qlt_le_dec (row_norm v) tiny) as [_|Hle]; [reflexivity|].
  pose proof tiny_pos. lra.
Qed.

Lemma check_pairwise_arrays_ok (x : list Q) X Y y :
  x <> [] -> has_width (length x) X = true -> has_width (length x) (y :: Y) = true ->
  check_pairwise_arrays (x :: X) (y :: Y) = Returned tt.
Proof.
  intros Hx HX HY. unfold check_pairwise_arrays.
  assert (Hd : Nat.eqb (length x) 0 = false).
  { destruct x; [congruence|reflexivity]. }
  rewrite Hd, HY. cbn [has_width forallb] in *.
  rewrite Nat.eqb_refl. simpl. unfold has_width in HX. rewrite HX. reflexivity.
Qed.

(** The row of scores of one query vector against a non-empty matrix of
    embeddings of the same width. *)
Lemma cosine_similarity_row (q : list Q) Y :
  q <> [] -> Y <> [] -> has_width (length q) Y = true ->
  cosine_similarity [q] Y =
  Returned [List.map (fun y => dot (normalize_row q) (normalize_row y)) Y].
Proof.
  intros Hq HY HW. destruct Y as [|y Y]; [congruence|].
  unfold cosine_similarity. rewrite check_pairwise_arrays_ok by (auto; reflexivity).
  cbn [obind List.map]. rewrite !List.map_map. reflexivity.
Qed.

Lemma rint_bounds x : (Qfloor x <= rint x <= Qfloor x + 1)%Z.
Proof.
  unfold rint. destruct (Qcompare _ _); [destruct (Z.even _)| |]; lia.
Qed.

Lemma rint_monotone x y : x <= y -> (rint x <= rint y)%Z.
Proof.
  intros Hxy. pose proof (Qfloor_resp_le _ _ Hxy) as Hf.
  destruct (Z.eq_dec (Qfloor x) (Qfloor y)) as [E|NE].
  - unfold rint. rewrite <- E.
    destruct (Qcompare_spec (x - inject_Z (Qfloor x)) (1 # 2)) as [Hx|Hx|Hx];
    destruct (Qcompare_spec (y - inject_Z (Qfloor x)) (1 # 2)) as [Hy|Hy|Hy];
      try destruct (Z.even (Qfloor x)); try lia; exfalso; lra.
  - pose proof (rint_bounds x). pose proof (rint_bounds y). lia.
Qed.

Lemma np_round_monotone x y d : x <= y -> np_round x d <= np_round y d.
Proof.
  intros Hxy. unfold np_round.
  assert (Hs : 0 < inject_Z (10 ^ Z.of_nat d)).
  { change 0 with (inject_Z 0). rewrite <- Zlt_Qlt. apply Z.pow_pos_nonneg; lia. }
  unfold Qdiv. apply Qmult_le_compat_r.
  - rewrite <- Zle_Qle. apply rint_monotone. apply Qmult_le_compat_r; [exact Hxy|].
    apply Qlt_le_weak, Hs.
  - apply Qlt_le_weak, Qinv_lt_0_compat, Hs.
Qed.

End KernelFacts.

(** ** Lists, slices and sortedness *)

Section ListFacts.
Context {A : Type}.

Lemma StronglySorted_rev_flip (R : A -> A -> Prop) l :
  StronglySorted R l -> StronglySorted (fun x y => R y x) (rev l).
Proof.
  induction 1 as [|a l Hs IH Hall]; simpl; [constructor|].
  apply StronglySorted_app_2; [|exact IH|repeat constructor].
  intros x y Hx Hy. apply list_elem_of_In in Hy as [->|[]].
  rewrite Forall_forall in Hall. apply Hall.
  apply list_elem_of_In in Hx. apply list_elem_of_In. apply in_rev in Hx. exact Hx.
Qed.

Lemma StronglySorted_firstn (R : A -> A -> Prop) n l :
  StronglySorted R l -> StronglySorted R (firstn n l).
Proof.
  intros Hs. rewrite <- (firstn_skipn n l) in Hs.
  eapply StronglySorted_app_1_l, Hs.
Qed.

Lemma slice_to_firstn (k : Z) (l : list A) : exists n, Py.slice_to k l = firstn n l.
Proof. unfold Py.slice_to. destruct (0 <=? k)%Z; eauto. Qed.

Lemma slice_to_incl (k : Z) (l : list A) x : In x (Py.slice_to k l) -> In x l.
Proof.
  destruct (slice_to_firstn k l) as [n ->]. intros Hx.
  rewrite <- (firstn_skipn n l). apply in_or_app. now left.
Qed.

Lemma slice_to_length (k : Z) (l : list A) :
  length (Py.slice_to k l) =
  if (0 <=? k)%Z then Nat.min (Z.to_nat k) (length l)
  else length l - Z.to_nat (- k).
Proof.
  unfold Py.slice_to. destruct (0 <=? k)%Z; rewrite length_firstn; lia.
Qed.

Lemma NoDup_map_eq {B} (f : A -> B) l x y :
  NoDup (List.map f l) -> In x l -> In y l -> f x = f y -> x = y.
Proof.
  induction l as [|a l IH]; simpl; [tauto|]. intros Hnd Hx Hy E.
  apply NoDup_cons in Hnd as [Hna Hnd].
  destruct Hx as [->|Hx], Hy as [->|Hy]; auto.
  - exfalso. apply Hna. rewrite E. apply list_elem_of_In, in_map, Hy.
  - exfalso. apply Hna. rewrite <- E. apply list_elem_of_In, in_map, Hx.
Qed.

Lemma omap_length_le {B} (f : A -> option B) l : length (omap f l) <= length l.
Proof. induction l as [|x l IH]; csimpl; [lia|]. destruct (f x); simpl; lia. Qed.

End ListFacts.

(** ** The lookup of the record behind a name *)

Lemma find_song_Some songs name s :
  find_song songs name = Some s -> In s songs /\ filename s = Some name.
Proof.
  unfold find_song. intros H. apply find_some in H as [Hin Hb].
  apply bool_decide_eq_true in Hb. auto.
Qed.

Lemma find_song_unique songs s name :
  NoDup (List.map get_filename songs) -> In s songs -> filename s = Some name ->
  find_song songs name = Some s.
Proof.
  intros Hnd Hin Hf. destruct (find_song songs name) as [s'|] eqn:E.
  - apply find_song_Some in E as [Hin' Hf']. f_equal.
    apply (NoDup_map_eq get_filename songs); auto.
    unfold get_filename. now rewrite Hf, Hf'.
  - unfold find_song in E. eapply find_none in E; [|exact Hin].
    apply bool_decide_eq_false in E. contradiction.
Qed.

Lemma emitted_inv songs name score rec :
  emitted songs name score = Some rec ->
  exists song_data,
    find_song songs name = Some song_data
    /\ rec = mkRecommendation name (get_lyrics song_data) (np_round score 3).
Proof.
  unfold emitted. destruct (find_song songs name) as [sd|]; [|discriminate].
  destruct (song_truthy sd); [|discriminate]. intros [= <-]. eauto.
Qed.

Lemma emitted_at_score songs names sims i r :
  emitted_at songs names sims i = Some r ->
  similarity_score r = np_round (nth i sims 0%Q) 3.
Proof.
  unfold emitted_at, emitted. destruct (find_song _ _) as [sd|]; [|discriminate].
  destruct (song_truthy sd); [|discriminate]. now intros [= <-].
Qed.

Lemma recommend_one_inv songs names sims i rec :
  recommend_one songs names sims i = Returned (Some rec) ->
  exists name score,
    nth_error names i = Some name /\ nth_error sims i = Some score
    /\ emitted songs name score = Some rec.
Proof.
  unfold recommend_one, getitem.
  destruct (nth_error names i) as [name|]; [|discriminate].
  destruct (nth_error sims i) as [score|]; [|discriminate]. simpl.
  intros H. exists name, score. repeat split. unfold emitted.
  destruct (find_song songs name) as [sd|]; [|discriminate].
  destruct (song_truthy sd); [|discriminate]. congruence.
Qed.

Lemma recommend_one_in_range songs names sims idx name score :
  nth_error names idx = Some name -> nth_error sims idx = Some score ->
  recommend_one songs names sims idx = Returned (emitted songs name score).
Proof.
  intros Hn Hs. unfold recommend_one, getitem, emitted. rewrite Hn, Hs. simpl.
  destruct (find_song songs name) as [sd|]; [|reflexivity].
  destruct (song_truthy sd); reflexivity.
Qed.

Lemma emitted_source songs s score rec :
  NoDup (List.map get_filename songs) -> In s songs ->
  emitted songs (get_filename s) score = Some rec ->
  rec_lyrics rec = get_lyrics s /\ filename s = Some (rec_filename rec).
Proof.
  intros Hnd Hin He. apply emitted_inv in He as (sd & Hf & ->). simpl.
  apply find_song_Some in Hf as [Hin' Hf'].
  assert (sd = s) as ->.
  { apply (NoDup_map_eq get_filename songs); auto.
    unfold get_filename at 1. now rewrite Hf'. }
  auto.
Qed.


Lemma omap_emitted_sorted songs names sims tops :
  StronglySorted (fun i j => (nth j sims 0 <= nth i sims 0)%Q) tops ->
  StronglySorted by_score_desc (omap (emitted_at songs names sims) tops).
Proof.
  induction 1 as [|i tops Hs IH Hall]; simpl; [constructor|].
  destruct (emitted_at songs names sims i) as [r|] eqn:Er; [|exact IH].
  constructor; [exact IH|].
  apply Forall_forall. intros r' Hr'.
  apply list_elem_of_omap in Hr' as (j & Hj & Ej).
  rewrite Forall_forall in Hall. specialize (Hall j Hj).
  unfold by_score_desc.
  rewrite (emitted_at_score _ _ _ _ _ Er), (emitted_at_score _ _ _ _ _ Ej).
  apply np_round_monotone, Hall.
Qed.

(** ** The embedding cache *)

Lemma fresh_consistent m : cache_consistent m fresh.
Proof. intros texts v H. simpl in H. rewrite lookup_empty in H. discriminate. Qed.

Lemma after_embeddings_consistent m song_texts w :
  cache_consistent m w -> cache_consistent m (after_embeddings m song_texts w).
Proof.
  intros Hc. unfold after_embeddings.
  destruct (embeddings_cache w !! song_texts) eqn:E; [exact Hc|].
  intros t v. simpl. rewrite lookup_insert. case_decide as Ht.
  - subst. congruence.
  - apply Hc.
Qed.

Lemma after_embeddings_hit m song_texts w :
  is_Some (embeddings_cache w !! song_texts) -> after_embeddings m song_texts w = w.
Proof. intros [v E]. unfold after_embeddings. now rewrite E. Qed.

Lemma after_embeddings_cached m song_texts w :
  is_Some (embeddings_cache (after_embeddings m song_texts w) !! song_texts).
Proof.
  unfold after_embeddings.
  destruct (embeddings_cache w !! song_texts) eqn:E; [rewrite E; eauto|].
  simpl. rewrite lookup_insert_eq. eauto.
Qed.

Lemma after_embeddings_keeps m song_texts w t :
  is_Some (embeddings_cache w !! t) ->
  is_Some (embeddings_cache (after_embeddings m song_texts w) !! t).
Proof.
  intros Ht. unfold after_embeddings.
  destruct (embeddings_cache w !! song_texts) eqn:E; [exact Ht|].
  simpl. rewrite lookup_insert. case_decide; eauto.
Qed.

Lemma corpus_encodings_app t tr tr' :
  corpus_encodings t (tr ++ tr') = corpus_encodings t tr + corpus_encodings t tr'.
Proof. unfold corpus_encodings. now rewrite List.filter_app, length_app. Qed.

Lemma after_embeddings_encodings m song_texts w t :
  corpus_encodings t (trace (after_embeddings m song_texts w)) =
  corpus_encodings t (trace w) +
  match embeddings_cache w !! song_texts, song_texts with
  | None, _ :: _ => if bool_decide (song_texts = t) then 1 else 0
  | _, _ => 0
  end.
Proof.
  unfold after_embeddings.
  destruct (embeddings_cache w !! song_texts) eqn:E; [lia|].
  destruct song_texts as [|t0 ts]; simpl; [lia|].
  rewrite corpus_encodings_app. f_equal. unfold corpus_encodings. simpl.
  destruct (bool_decide _); reflexivity.
Qed.

Lemma embedded_once_fresh : embedded_once fresh.
Proof. intros t. unfold corpus_encodings. simpl. split; lia. Qed.

Lemma after_embeddings_once m song_texts w :
  embedded_once w -> embedded_once (after_embeddings m song_texts w).
Proof.
  intros Hw t. destruct (Hw t) as [Hle Hin].
  rewrite after_embeddings_encodings.
  destruct (embeddings_cache w !! song_texts) as [v|] eqn:E.
  - rewrite Nat.add_0_r. split; [exact Hle|]. intros Hpos.
    apply after_embeddings_keeps, Hin, Hpos.
  - destruct song_texts as [|t0 ts].
    + rewrite Nat.add_0_r. split; [exact Hle|]. intros Hpos.
      apply after_embeddings_keeps, Hin, Hpos.
    + case_bool_decide as Ht.
      * subst t. split.
        -- destruct (Nat.eq_dec (corpus_encodings (t0 :: ts) (trace w)) 0) as [->|Hne];
             [lia|].
           destruct Hin as [v Hv]; [lia|congruence].
        -- intros _. apply after_embeddings_cached.
      * rewrite Nat.add_0_r. split; [exact Hle|]. intros Hpos.
        apply after_embeddings_keeps, Hin, Hpos.
Qed.

(** ** One request *)

Section RequestFacts.
Context {FL : FloatLib} {AS : ArgSort}.

Lemma get_song_embeddings_run m song_texts w :
  cache_consistent m w ->
  get_song_embeddings song_texts (Some m) w =
  (Returned (expected_embeddings m song_texts), after_embeddings m song_texts w).
Proof.
  intros Hc. unfold get_song_embeddings, cache_resource, after_embeddings.
  destruct (embeddings_cache w !! song_texts) as [v|] eqn:E.
  - now rewrite (Hc _ _ E).
  - destruct song_texts; reflexivity.
Qed.

Lemma get_song_embeddings_any m song_texts w :
  get_song_embeddings song_texts (Some m) w =
  (Returned (match embeddings_cache w !! song_texts with
             | Some v => v
             | None => expected_embeddings m song_texts
             end),
   after_embeddings m song_texts w).
Proof.
  unfold get_song_embeddings, cache_resource, after_embeddings.
  destruct (embeddings_cache w !! song_texts) as [v|] eqn:E; [reflexivity|].
  destruct song_texts; reflexivity.
Qed.

Lemma encode_has_width m q texts :
  has_width (length (embed m q)) (encode m texts) = true.
Proof.
  unfold has_width, encode. rewrite forallb_forall. intros r Hr.
  apply in_map_iff in Hr as (t & <- & _). rewrite !embed_dim. apply Nat.eqb_refl.
Qed.

Lemma embed_nonempty m q : embed m q <> [].
Proof.
  intros E. pose proof (embed_dim m q) as Hd. rewrite E in Hd.
  pose proof (dim_pos m). simpl in Hd. congruence.
Qed.

Lemma cosine_similarity_encode m q texts :
  texts <> [] ->
  cosine_similarity (encode m [q]) (encode m texts) =
  Returned [similarities_of m q texts].
Proof.
  intros Ht. change (encode m [q]) with [embed m q].
  rewrite cosine_similarity_row.
  - unfold similarities_of, encode. now rewrite List.map_map.
  - apply embed_nonempty.
  - destruct texts; [congruence|discriminate].
  - apply encode_has_width.
Qed.

Lemma recommend_loop_in_range songs names sims tops acc :
  length names = length sims ->
  Forall (fun i => i < length sims) tops ->
  recommend_loop songs names sims tops acc =
  Returned (acc ++ omap (emitted_at songs names sims) tops).
Proof.
  intros Hlen Hall. revert acc.
  induction Hall as [|i tops Hi _ IH]; intros acc; simpl.
  - now rewrite app_nil_r.
  - assert (Hn : nth_error names i = Some (nth i names [])).
    { apply nth_error_nth'. lia. }
    assert (Hs : nth_error sims i = Some (nth i sims 0%Q)).
    { apply nth_error_nth'. lia. }
    rewrite (recommend_one_in_range _ _ _ _ _ _ Hn Hs). simpl.
    fold (emitted_at songs names sims i).
    destruct (emitted_at songs names sims i) as [r|]; rewrite IH.
    + now rewrite <- app_assoc.
    + reflexivity.
Qed.

Lemma top_indices_in_range sims k :
  Forall (fun i => i < length sims) (top_indices_of sims k).
Proof.
  apply Forall_forall. intros i Hi. apply list_elem_of_In in Hi.
  unfold top_indices_of in Hi. apply slice_to_incl, in_rev in Hi.
  eapply Permutation_in in Hi; [|apply argsort_perm].
  apply in_seq in Hi. lia.
Qed.

Lemma top_indices_sorted sims k :
  StronglySorted (fun i j => (nth j sims 0 <= nth i sims 0)%Q) (top_indices_of sims k).
Proof.
  unfold top_indices_of.
  destruct (slice_to_firstn k (rev (argsort sims))) as [n ->].
  apply StronglySorted_firstn.
  apply (StronglySorted_rev_flip (fun i j => (nth i sims 0 <= nth j sims 0)%Q)).
  apply argsort_sorted.
Qed.

Lemma top_indices_length sims k :
  length (top_indices_of sims k) =
  if (0 <=? k)%Z then Nat.min (Z.to_nat k) (length sims)
  else length sims - Z.to_nat (- k).
Proof.
  unfold top_indices_of. rewrite slice_to_length, length_rev.
  now rewrite (Permutation_length (argsort_perm sims)), length_seq.
Qed.

Lemma get_recommendations_fast_empty q songs mo k w :
  survivors songs = [] ->
  get_recommendations_fast q songs mo k w = (Returned [], w).
Proof.
  intros Hs. unfold get_recommendations_fast.
  destruct mo; [|reflexivity]. destruct songs; [reflexivity|].
  rewrite preprocess_songs_eq, Hs. reflexivity.
Qed.

Lemma get_recommendations_fast_run m q songs k w :
  cache_consistent m w -> survivors songs <> [] ->
  get_recommendations_fast q songs (Some m) k w =
  (Returned (ranking m q songs k), after_request m q songs w).
Proof.
  intros Hc Hs. unfold get_recommendations_fast, ranking, after_request.
  destruct songs as [|s0 songs0]; [now destruct Hs|].
  rewrite preprocess_songs_eq. cbn [fst].
  set (songs := s0 :: songs0) in *.
  set (texts := List.map lyrics_text (survivors songs)).
  set (names := List.map get_filename (survivors songs)).
  assert (Ht : texts <> []).
  { subst texts. destruct (survivors songs); [congruence|discriminate]. }
  destruct texts as [|t0 texts0] eqn:Etexts; [congruence|].
  rewrite <- Etexts in *.
  unfold mbind, App_bind, bind.
  rewrite (get_song_embeddings_run _ _ _ Hc).
  assert (Hexp : expected_embeddings m texts = Some (encode m texts)).
  { rewrite Etexts. reflexivity. }
  rewrite Hexp. unfold emit, lift. cbn [embeddings_cache trace].
  rewrite (cosine_similarity_encode _ _ _ Ht). cbn [getitem nth_error].
  rewrite recommend_loop_in_range.
  - reflexivity.
  - unfold similarities_of, names, texts. now rewrite !length_map.
  - apply top_indices_in_range.
Qed.

Lemma after_request_consistent m q songs w :
  cache_consistent m w -> cache_consistent m (after_request m q songs w).
Proof.
  intros Hc. unfold after_request. intros t v. cbn [embeddings_cache].
  apply after_embeddings_consistent, Hc.
Qed.

Lemma ranking_sorted m q songs k : StronglySorted by_score_desc (ranking m q songs k).
Proof.
  unfold ranking. rewrite preprocess_songs_eq.
  apply omap_emitted_sorted, top_indices_sorted.
Qed.

Lemma ranking_length m q songs k :
  length (ranking m q songs k) <=
  if (0 <=? k)%Z then Nat.min (Z.to_nat k) (length (survivors songs))
  else length (survivors songs) - Z.to_nat (- k).
Proof.
  unfold ranking. rewrite preprocess_songs_eq.
  etransitivity; [apply omap_length_le|].
  rewrite top_indices_length. unfold similarities_of. rewrite !length_map.
  destruct (0 <=? k)%Z; lia.
Qed.

Lemma ranking_In m q songs k rec :
  In rec (ranking m q songs k) ->
  exists i s score,
    nth_error (survivors songs) i = Some s
    /\ emitted songs (get_filename s) score = Some rec.
Proof.
  unfold ranking. rewrite preprocess_songs_eq. intros Hin.
  apply list_elem_of_In, list_elem_of_omap in Hin as (i & Hi & He).
  pose proof (top_indices_in_range (similarities_of m q (List.map lyrics_text (survivors songs))) k) as Hr.
  rewrite Forall_forall in Hr. specialize (Hr i Hi).
  unfold similarities_of in Hr. rewrite !length_map in Hr.
  destruct (nth_error (survivors songs) i) as [s|] eqn:Es.
  2:{ apply nth_error_None in Es. lia. }
  exists i, s. eexists. split; [exact Es|].
  unfold emitted_at in He.
  erewrite (nth_error_nth (List.map get_filename (survivors songs))) in He;
    [exact He|].
  rewrite nth_error_map, Es. reflexivity.
Qed.

Lemma get_recommendations_fast_world q songs mo k w :
  snd (get_recommendations_fast q songs mo k w) = world_after q songs mo w.
Proof.
  unfold world_after. destruct mo as [m|]; [|reflexivity].
  destruct (survivors songs) as [|s0 rest] eqn:Es.
  { now rewrite get_recommendations_fast_empty. }
  unfold get_recommendations_fast.
  destruct songs as [|x songs0]; [discriminate|].
  rewrite preprocess_songs_eq, Es. cbn [fst List.map].
  unfold mbind, App_bind, bind. rewrite get_song_embeddings_any.
  destruct (embeddings_cache w !! _) as [[embs|]|] eqn:E; cbn [expected_embeddings].
  - unfold emit, lift.
    destruct (cosine_similarity _ _) as [rows|]; [|reflexivity].
    destruct (getitem rows 0); reflexivity.
  - reflexivity.
  - unfold emit, lift.
    destruct (cosine_similarity _ _) as [rows|]; [|reflexivity].
    destruct (getitem rows 0); reflexivity.
Qed.

Lemma world_after_once q songs mo w :
  embedded_once w -> embedded_once (world_after q songs mo w).
Proof.
  intros Hw. unfold world_after. destruct mo as [m|]; [|exact Hw].
  destruct (survivors songs); [exact Hw|].
  pose proof (after_embeddings_once m (fst (preprocess_songs songs)) w Hw) as H1.
  destruct (embeddings_cache w !! _) as [[?|]|]; try exact H1.
  all: intros t; specialize (H1 t); cbn [trace embeddings_cache];
    rewrite corpus_encodings_app; unfold corpus_encodings at 2 4; simpl;
    rewrite Nat.add_0_r; exact H1.
Qed.

Lemma run_requests_once requests w :
  embedded_once w -> embedded_once (run_requests requests w).
Proof.
  revert w. induction requests as [|[[[q songs] mo] k] rest IH]; intros w Hw;
    [exact Hw|].
  apply IH. rewrite get_recommendations_fast_world. apply world_after_once, Hw.
Qed.

Lemma world_after_cached q songs m w s0 rest :
  survivors songs = s0 :: rest ->
  is_Some (embeddings_cache (world_after q songs (Some m) w)
             !! fst (preprocess_songs songs)).
Proof.
  intros Es. unfold world_after. rewrite Es.
  pose proof (after_embeddings_cached m (fst (preprocess_songs songs)) w) as H1.
  destruct (embeddings_cache w !! _) as [[?|]|]; exact H1.
Qed.

End RequestFacts.

(** With the insertion sort, the ranking puts, of two entries of equal
    score, the one of the higher index first. *)
Lemma insertion_ranking_ties sims k :
  StronglySorted (fun i j => stable_before sims j i)
                 (@top_indices_of insertion_sort sims k).
Proof.
  unfold top_indices_of.
  destruct (slice_to_firstn k (rev (argsort sims))) as [n ->].
  apply StronglySorted_firstn.
  apply (StronglySorted_rev_flip (stable_before sims)).
  apply insertion_argsort_stable.
Qed.

(** * Part III: the claims *)

(** The cache invariant is kept by a request, so it holds of every state
    reached from [fresh] under one model. *)
Lemma get_recommendations_fast_consistent {FL : FloatLib} {AS : ArgSort}
    (m : Model) (sermon_text : Py.str) (songs : list Song) (top_k : Z) (w : World) :
  cache_consistent m w ->
  cache_consistent m (snd (get_recommendations_fast sermon_text songs (Some m) top_k w)).
Proof.
  intros Hc. destruct (survivors songs) as [|s0 rest] eqn:Es.
  - now rewrite get_recommendations_fast_empty.
  - rewrite get_recommendations_fast_run by (auto; congruence).
    apply after_request_consistent, Hc.
Qed.

Lemma main_consistent {FL : FloatLib} {AS : ArgSort} (m : Model)
    (songs_data : list Song) (sermon_text : Py.str) (clicked : bool) (w : World) :
  cache_consistent m w ->
  cache_consistent m (snd (main songs_data (Some m) sermon_text clicked w)).
Proof.
  intros Hc. unfold main. destruct songs_data as [|s0 songs0]; [exact Hc|].
  set (songs := s0 :: songs0).
  destruct (preprocess_songs songs) as [song_texts song_names].
  unfold mbind, App_bind, bind. rewrite get_song_embeddings_any.
  pose proof (after_embeddings_consistent m song_texts w Hc) as H1.
  set (w1 := after_embeddings m song_texts w) in *.
  unfold emit at 1. cbn [embeddings_cache trace].
  set (w2 := mkWorld (embeddings_cache w1) (trace w1 ++ [StSongsLoaded (length songs)])).
  assert (H2 : cache_consistent m w2) by exact H1.
  destruct clicked; [|exact H2].
  destruct (negb (Py.truthy sermon_text) || negb (Py.truthy (Py.strip sermon_text)));
    [exact H2|].
  unfold try_except.
  pose proof (get_recommendations_fast_consistent m (Py.strip sermon_text) songs 5 w2 H2) as H3.
  destruct (get_recommendations_fast (Py.strip sermon_text) songs (Some m) 5 w2)
    as [[recs|e] w3]; cbn [snd] in H3 |- *.
  - destruct recs; exact H3.
  - exact H3.
Qed.

(** ** C1: the order of the result *)

(** C1 (amended): for every corpus, query and [top_k], and whatever order
    [argsort] gives to equal elements, [get_recommendations_fast] returns
    and the scores of the returned recommendations are in non-increasing
    order.  Nothing is promised on the order of entries of equal score. *)
Theorem C1_scores_descending {FL : FloatLib} {AS : ArgSort}
    (m : Model) (sermon_text : Py.str) (songs : list Song) (top_k : Z)
    (w : World) :
  cache_consistent m w ->
  exists recs w',
    get_recommendations_fast sermon_text songs (Some m) top_k w = (Returned recs, w')
    /\ StronglySorted
         (fun r r' => (similarity_score r' <= similarity_score r)%Q) recs.
Proof.
  intros Hc. destruct (survivors songs) as [|s0 rest] eqn:Es.
  - rewrite get_recommendations_fast_empty by exact Es.
    eexists _, _. split; [reflexivity|constructor].
  - rewrite get_recommendations_fast_run by (auto; congruence).
    eexists _, _. split; [reflexivity|apply ranking_sorted].
Qed.

Lemma C1_scores_descending_witness :
  exists recs w',
    get_recommendations_fast Demo.query Demo.scenario_a (Some Demo.model) 2 fresh
    = (Returned recs, w')
    /\ StronglySorted
         (fun r r' => (similarity_score r' <= similarity_score r)%Q) recs.
Proof.
  apply (C1_scores_descending Demo.model Demo.query Demo.scenario_a 2 fresh).
  apply fresh_consistent.
Defined.

(** C1, as stated, fails on ties: of two records with the same lyrics,
    hence the same score, the one later in the corpus is returned first,
    because the ascending insertion sort keeps equal elements in index
    order and [[::-1]] reverses it. *)
Lemma C1_counterexample :
  exists recs w',
    @get_recommendations_fast float32_lib insertion_sort
      Demo.query Demo.twins (Some Demo.model) 5 fresh = (Returned recs, w')
    /\ List.map rec_filename recs = [Py.lit "b"; Py.lit "a"]
    /\ ~ ties_to_lower_index Demo.twins recs.
Proof.
  eexists _, _. split; [vm_compute; reflexivity|]. split; [reflexivity|].
  intros H. specialize (H 0 1 _ _ 1 0 (Nat.lt_0_1) eq_refl eq_refl).
  assert (1 < 0); [|lia]. apply H; reflexivity.
Qed.

(** ** C2: the record behind a recommendation *)

(** C2 (amended): for every corpus in which no two records have the same
    name ([song.get('filename', 'Unknown')]), the recommendation appended
    for a ranked index carries the lyrics of the record that produced the
    text at that index; and every returned recommendation is the one of
    some index [i], with the filename and the full lyrics of the record
    behind [song_texts[i]]. *)
Theorem C2_lyrics_of_source_record {FL : FloatLib} {AS : ArgSort}
    (m : Model) (sermon_text : Py.str) (songs : list Song) (top_k : Z)
    (w : World) :
  cache_consistent m w ->
  NoDup (List.map get_filename songs) ->
  maps_back_to_source songs
  /\ exists recs w',
       get_recommendations_fast sermon_text songs (Some m) top_k w = (Returned recs, w')
       /\ forall rec, In rec recs ->
            exists i s,
              nth_error (survivors songs) i = Some s
              /\ nth_error (fst (preprocess_songs songs)) i = Some (lyrics_text s)
              /\ filename s = Some (rec_filename rec)
              /\ rec_lyrics rec = get_lyrics s.
Proof.
  intros Hc Hnd. split.
  - intros sims i rec s Hone Hs.
    apply recommend_one_inv in Hone as (name & score & Hn & _ & He).
    rewrite preprocess_songs_eq in Hn. cbn [snd] in Hn.
    rewrite nth_error_map, Hs in Hn. injection Hn as <-.
    eapply emitted_source; eauto.
    eapply survivors_In, nth_error_In, Hs.
  - destruct (survivors songs) as [|s0 rest] eqn:Es.
    + rewrite get_recommendations_fast_empty by exact Es.
      eexists _, _. split; [reflexivity|]. intros rec [].
    + rewrite get_recommendations_fast_run by (auto; congruence).
      eexists _, _. split; [reflexivity|]. rewrite <- Es. intros rec Hin.
      apply ranking_In in Hin as (i & s & score & Hs & He).
      exists i, s. split; [exact Hs|].
      rewrite preprocess_songs_eq. cbn [fst]. rewrite nth_error_map, Hs.
      split; [reflexivity|].
      apply and_comm. eapply emitted_source; eauto.
      eapply survivors_In, nth_error_In, Hs.
Qed.

Lemma C2_lyrics_of_source_record_witness :
  maps_back_to_source Demo.scenario_a
  /\ exists recs w',
       get_recommendations_fast Demo.query Demo.scenario_a (Some Demo.model) 2 fresh
       = (Returned recs, w')
       /\ forall rec, In rec recs ->
            exists i s,
              nth_error (survivors Demo.scenario_a) i = Some s
              /\ nth_error (fst (preprocess_songs Demo.scenario_a)) i
                 = Some (lyrics_text s)
              /\ filename s = Some (rec_filename rec)
              /\ rec_lyrics rec = get_lyrics s.
Proof.
  apply (C2_lyrics_of_source_record Demo.model Demo.query Demo.scenario_a 2 fresh).
  - apply fresh_consistent.
  - apply (bool_decide_unpack _). vm_compute. exact I.
Defined.

(** C2, as stated, fails when two records share a filename: the lookup by
    name finds the first of them, so the recommendation for the second
    carries the lyrics of the first, and the lyrics of the second are
    never returned. *)
Lemma C2_counterexample :
  ~ maps_back_to_source Demo.namesakes
  /\ exists recs w',
       get_recommendations_fast Demo.query Demo.namesakes (Some Demo.model) 5 fresh
       = (Returned recs, w')
       /\ List.map rec_lyrics recs = [[Py.lit "x"]; [Py.lit "x"]].
Proof.
  split.
  - intros H.
    specialize (H [1; 1]%Q 1
                  (mkRecommendation (Py.lit "a") [Py.lit "x"] (np_round 1 3))
                  (Demo.song "a" ["y"%string]) eq_refl eq_refl).
    discriminate H.
  - eexists _, _. split; [vm_compute; reflexivity|]. reflexivity.
Qed.

(** ** C3: the length of the result *)

(** C3 (amended): for every corpus, query and integer [top_k] the
    operation returns.  For [top_k >= 0] the result has at most
    [min top_k n] entries, [n] the number of records with non-empty
    lyrics, and [top_k = 0] gives the empty sequence.  For a negative
    [top_k] the slice [[:top_k]] drops the last [- top_k] ranked indices,
    so the result has at most [n - (- top_k)] entries. *)
Theorem C3_result_length {FL : FloatLib} {AS : ArgSort}
    (m : Model) (sermon_text : Py.str) (songs : list Song) (top_k : Z)
    (w : World) :
  cache_consistent m w ->
  exists recs w',
    get_recommendations_fast sermon_text songs (Some m) top_k w = (Returned recs, w')
    /\ length recs <=
       (if (0 <=? top_k)%Z
        then Nat.min (Z.to_nat top_k) (length (survivors songs))
        else length (survivors songs) - Z.to_nat (- top_k))
    /\ (top_k = 0%Z -> recs = []).
Proof.
  intros Hc. destruct (survivors songs) as [|s0 rest] eqn:Es.
  - rewrite get_recommendations_fast_empty by exact Es.
    eexists _, _. split; [reflexivity|]. split; [simpl; lia|reflexivity].
  - rewrite get_recommendations_fast_run by (auto; congruence).
    eexists _, _. split; [reflexivity|]. rewrite <- Es. split.
    + apply ranking_length.
    + intros ->. pose proof (ranking_length m sermon_text songs 0) as Hl.
      simpl in Hl. destruct (ranking m sermon_text songs 0); [reflexivity|].
      simpl in Hl. lia.
Qed.

Lemma C3_result_length_witness :
  exists recs w',
    get_recommendations_fast Demo.query Demo.scenario_a (Some Demo.model) 2 fresh
    = (Returned recs, w')
    /\ length recs <= 2
    /\ (2%Z = 0%Z -> recs = []).
Proof.
  apply (C3_result_length Demo.model Demo.query Demo.scenario_a 2 fresh).
  apply fresh_consistent.
Defined.

(** C3, as stated, fails for a negative [top_k]: with two embeddable
    records and [top_k = -1] one recommendation is returned. *)
Lemma C3_counterexample :
  exists recs w',
    get_recommendations_fast Demo.query Demo.scenario_a (Some Demo.model) (-1) fresh
    = (Returned recs, w')
    /\ length recs = 1.
Proof. eexists _, _. split; [vm_compute; reflexivity|]. reflexivity. Qed.

(** ** C4: vectors of norm zero *)

(** C4 (amended): a query vector or a corpus embedding of norm zero does
    not make the similarity computation raise, and the score of the
    affected entry is 0: scikit-learn replaces the zero norm by 1 before
    dividing, so the entry is an inner product with a zero vector. *)
Theorem C4_zero_norm_scores_zero {FL : FloatLib} (q : list Q)
    (Y : list (list Q)) (j : nat) (v : list Q) :
  q <> [] -> has_width (length q) Y = true -> nth_error Y j = Some v ->
  (row_norm q == 0)%Q \/ (row_norm v == 0)%Q ->
  exists row s,
    cosine_similarity [q] Y = Returned [row]
    /\ nth_error row j = Some s /\ (s == 0)%Q.
Proof.
  intros Hq HW Hj Hzero.
  assert (HY : Y <> []) by (intros ->; destruct j; discriminate).
  rewrite cosine_similarity_row by assumption.
  eexists _, _. split; [reflexivity|]. split.
  - rewrite nth_error_map, Hj. reflexivity.
  - destruct Hzero as [Hn|Hn].
    + apply dot_zero_l, normalize_zero_row, zero_norm_zero_row, Hn.
    + apply dot_zero_r, normalize_zero_row, zero_norm_zero_row, Hn.
Qed.

Lemma C4_zero_norm_scores_zero_witness :
  exists row s,
    cosine_similarity [[0; 0]%Q] [[1; 0]%Q; [0; 0]%Q] = Returned [row]
    /\ nth_error row 1 = Some s /\ (s == 0)%Q.
Proof.
  apply (C4_zero_norm_scores_zero [0; 0]%Q [[1; 0]%Q; [0; 0]%Q] 1 [0; 0]%Q).
  - discriminate.
  - reflexivity.
  - reflexivity.
  - right. reflexivity.
Defined.

(** C4, as stated, fails: the score of a zero-norm embedding is 0, not
    the minimum -1. *)
Lemma C4_counterexample :
  exists s, cosine_similarity [[1; 0]%Q] [[0; 0]%Q] = Returned [[s]]
            /\ (s == 0)%Q /\ ~ (s == -1)%Q.
Proof.
  eexists. split; [vm_compute; reflexivity|]. split; [reflexivity|discriminate].
Qed.

(** ** C5: preprocessing *)

(** C5: [preprocess_songs] is a function of the corpus alone.  The text
    of a record is its lyrics lines joined by single spaces; the records
    kept are exactly those whose text is non-empty after trimming; they
    appear in corpus order; and the two returned sequences are parallel,
    position [i] of both coming from the [i]-th kept record, so that
    their lengths agree. *)
Theorem C5_preprocess_songs_spec (songs : list Song) :
  let text_of := fun s => Py.join [32%N] (get_lyrics s) in
  let kept := List.filter (fun s => Py.truthy (Py.strip (text_of s))) songs in
  preprocess_songs songs = (List.map text_of kept, List.map get_filename kept)
  /\ length (snd (preprocess_songs songs)) = length (fst (preprocess_songs songs))
  /\ sublist kept songs
  /\ (forall s, In s kept <-> In s songs /\ Py.strip (text_of s) <> []).
Proof.
  cbv zeta. rewrite preprocess_songs_eq. cbn [fst snd].
  change (List.filter
            (fun s => Py.truthy (Py.strip (Py.join [32%N] (get_lyrics s)))) songs)
    with (survivors songs).
  split; [reflexivity|]. split; [now rewrite !length_map|].
  split; [apply survivors_sublist|].
  intros s. split.
  - intros H. apply survivors_In in H as [Hin He]. split; [exact Hin|].
    apply embeddable_iff, He.
  - intros [Hin Hne]. unfold survivors. apply filter_In. split; [exact Hin|].
    apply embeddable_iff, Hne.
Qed.

(** ** C6: records without text *)

(** C6 (amended): for every corpus, a record whose lyrics are empty
    after joining and trimming never appears in the prepared text; and
    in a corpus where no such record carries the name of a record that
    has text, every returned recommendation takes its lyrics from a
    record that has text. *)
Theorem C6_blank_records_excluded {FL : FloatLib} {AS : ArgSort}
    (m : Model) (sermon_text : Py.str) (songs : list Song) (top_k : Z)
    (w : World) :
  Forall (fun t => Py.strip t <> []) (fst (preprocess_songs songs))
  /\ (forall b, embeddable b = false -> ~ In b (survivors songs))
  /\ (cache_consistent m w ->
      exists recs w',
        get_recommendations_fast sermon_text songs (Some m) top_k w = (Returned recs, w')
        /\ ((forall b s, In b songs -> In s songs ->
                         embeddable b = false -> embeddable s = true ->
                         filename b <> Some (get_filename s)) ->
            forall rec, In rec recs ->
              exists song_data,
                find_song songs (rec_filename rec) = Some song_data
                /\ rec_lyrics rec = get_lyrics song_data
                /\ embeddable song_data = true)).
Proof.
  split; [apply prepared_texts_nonblank|]. split.
  { intros b Hb Hin. apply survivors_In in Hin as [_ Hin]. congruence. }
  intros Hc. destruct (survivors songs) as [|s0 rest] eqn:Es.
  - rewrite get_recommendations_fast_empty by exact Es.
    eexists _, _. split; [reflexivity|]. intros _ rec [].
  - rewrite get_recommendations_fast_run by (auto; congruence).
    eexists _, _. split; [reflexivity|]. intros Hsep rec Hin.
    apply ranking_In in Hin as (i & s & score & Hs & He).
    apply emitted_inv in He as (sd & Hf & ->). cbn [rec_filename rec_lyrics].
    exists sd. split; [exact Hf|]. split; [reflexivity|].
    apply nth_error_In, survivors_In in Hs as [Hin Hemb].
    apply find_song_Some in Hf as [Hin' Hf'].
    destruct (embeddable sd) eqn:Esd; [reflexivity|].
    exfalso. exact (Hsep sd s Hin' Hin Esd Hemb Hf').
Qed.

Lemma C6_blank_records_excluded_witness :
  (Forall (fun t => Py.strip t <> []) (fst (preprocess_songs Demo.shadowed))
   /\ (forall b, embeddable b = false -> ~ In b (survivors Demo.shadowed)))
  /\ exists recs w',
       get_recommendations_fast Demo.query Demo.scenario_a (Some Demo.model) 2 fresh
       = (Returned recs, w')
       /\ forall rec, In rec recs ->
            exists song_data,
              find_song Demo.scenario_a (rec_filename rec) = Some song_data
              /\ rec_lyrics rec = get_lyrics song_data
              /\ embeddable song_data = true.
Proof.
  split.
  - destruct (C6_blank_records_excluded Demo.model Demo.query Demo.shadowed 5 fresh)
      as (Htexts & Hkept & _).
    split; [exact Htexts|exact Hkept].
  - destruct (C6_blank_records_excluded Demo.model Demo.query Demo.scenario_a 2 fresh)
      as (_ & _ & Hrun).
    destruct (Hrun (fresh_consistent Demo.model)) as (recs & w' & Hcall & Hrecs).
    exists recs, w'. split; [exact Hcall|]. apply Hrecs.
    intros b s [<-|[<-|[<-|[]]]] [<-|[<-|[<-|[]]]]; vm_compute; congruence.
Defined.

(** C6, as stated, fails when a record without text precedes a record of
    the same filename: the recommendation for the second takes the empty
    lyrics of the first. *)
Lemma C6_counterexample :
  exists recs w',
    get_recommendations_fast Demo.query Demo.shadowed (Some Demo.model) 5 fresh
    = (Returned recs, w')
    /\ List.map rec_lyrics recs = [[]]
    /\ ~ sources_embeddable Demo.shadowed recs.
Proof.
  eexists _, _. split; [vm_compute; reflexivity|]. split; [reflexivity|].
  intros H. specialize (H _ (Demo.song "a" []) (or_introl eq_refl) eq_refl).
  discriminate H.
Qed.

(** ** C7: the blank query *)

(** C7 (amended): the guard against a blank query is in the button
    handler of [main], not in [get_recommendations_fast].  On a click with
    a query that is empty after trimming, [main] returns without
    embedding the query: the trace gains no query encoding, ends with the
    warning when data and model are loaded, and gains no call of the
    model at all when the corpus embeddings are already cached.  The
    preload at the top of [main] runs before the guard. *)
Theorem C7_blank_query_guard {FL : FloatLib} {AS : ArgSort}
    (songs_data : list Song) (model : option Model)
    (sermon_text : Py.str) (w : World) :
  Py.strip sermon_text = [] ->
  exists events w',
    main songs_data model sermon_text true w = (Returned tt, w')
    /\ trace w' = trace w ++ events
    /\ forallb (fun e => negb (is_query_encoding e)) events = true
    /\ (is_Some (embeddings_cache w !! fst (preprocess_songs songs_data)) ->
        forallb (fun e => negb (is_encoding e)) events = true)
    /\ (songs_data <> [] -> model <> None -> last events = Some StWarning).
Proof.
  intros Hblank. unfold main.
  destruct songs_data as [|s0 songs0].
  { eexists [_], _. split; [reflexivity|]. repeat split; congruence. }
  destruct model as [m|].
  2:{ eexists [_], _. split; [reflexivity|]. repeat split; congruence. }
  set (songs := s0 :: songs0).
  destruct (preprocess_songs songs) as [song_texts song_names] eqn:Ep. cbn [fst].
  unfold mbind, App_bind, bind. rewrite get_song_embeddings_any.
  rewrite Hblank. cbn [Py.truthy negb]. rewrite orb_true_r.
  unfold emit. cbn [embeddings_cache trace].
  unfold after_embeddings.
  destruct (embeddings_cache w !! song_texts) as [v|] eqn:E.
  - eexists [_; _], _. split; [now rewrite <- app_assoc|].
    split; [reflexivity|]. repeat split; auto.
  - destruct song_texts as [|t0 ts]; cbn [embeddings_cache trace].
    + eexists [_; _], _. split; [now rewrite <- app_assoc|].
      split; [reflexivity|]. repeat split; auto.
    + eexists [_; _; _], _. split; [now rewrite <- !app_assoc|].
      split; [reflexivity|]. repeat split; auto.
      intros [? ?]; discriminate.
Qed.

Lemma C7_blank_query_guard_witness :
  exists events w',
    main Demo.scenario_a (Some Demo.model) (Py.lit "   ") true fresh = (Returned tt, w')
    /\ trace w' = trace fresh ++ events
    /\ forallb (fun e => negb (is_query_encoding e)) events = true
    /\ (is_Some (embeddings_cache fresh !! fst (preprocess_songs Demo.scenario_a)) ->
        forallb (fun e => negb (is_encoding e)) events = true)
    /\ (Demo.scenario_a <> [] -> Some Demo.model <> None ->
        last events = Some StWarning).
Proof.
  apply (C7_blank_query_guard Demo.scenario_a (Some Demo.model) (Py.lit "   ") fresh).
  reflexivity.
Defined.

(** C7, as stated, fails on the recommendation operation itself: given
    the empty query, [get_recommendations_fast] raises nothing, embeds the
    query and returns recommendations. *)
Lemma C7_counterexample :
  exists recs w',
    get_recommendations_fast Demo.blank_query Demo.scenario_a (Some Demo.model) 5 fresh
    = (Returned recs, w')
    /\ recs <> []
    /\ last (trace w') = Some (EncodeQuery Demo.blank_query).
Proof.
  eexists _, _. split; [vm_compute; reflexivity|]. split; [discriminate|reflexivity].
Qed.

(** ** C8: failure and the empty state *)

(** C8 (amended): [get_recommendations_fast] has one way to report that
    there is nothing to recommend.  Called without a model it returns the
    plain empty list, raises nothing and leaves no trace, exactly as it
    does for a corpus without embeddable text.  The failure is shown to
    the user by [main], which reports it through [st.error] before any
    request is made. *)
Theorem C8_model_unavailable_is_plain_empty {FL : FloatLib} {AS : ArgSort}
    (sermon_text : Py.str) (songs : list Song) (top_k : Z) (w : World)
    (_model : option Model) (clicked : bool) :
  get_recommendations_fast sermon_text songs None top_k w = (Returned [], w)
  /\ get_recommendations_fast sermon_text
       (List.filter (fun s => negb (embeddable s)) songs) _model top_k w
     = (Returned [], w)
  /\ main songs None sermon_text clicked w
     = (Returned tt, mkWorld (embeddings_cache w) (trace w ++ [StError LoadFailed])).
Proof.
  split; [reflexivity|]. split.
  - apply get_recommendations_fast_empty, survivors_of_blank.
  - unfold main. destruct songs; reflexivity.
Qed.

(** C8, as stated, fails: without a model the request on a corpus with
    text returns the same plain empty result, with no error and no
    distinguishing kind, as a request on a corpus without text. *)
Lemma C8_counterexample :
  get_recommendations_fast Demo.query Demo.scenario_a None 5 fresh
  = (Returned [], fresh)
  /\ get_recommendations_fast Demo.query [Demo.song "song3" []] (Some Demo.model) 5 fresh
     = get_recommendations_fast Demo.query Demo.scenario_a None 5 fresh.
Proof. split; reflexivity. Qed.

(** ** C9: the embedding cache *)

(** C9: starting from an empty cache, whatever requests are served one
    after the other, the batch embedding of a given sequence of song texts
    is computed at most once; and from any state, a second request on the
    same corpus finds the embeddings in the cache: it leaves the cache as
    it is and adds no batch embedding to the trace. *)
Theorem C9_corpus_embedded_at_most_once {FL : FloatLib} {AS : ArgSort}
    (requests : list Request) (song_texts : list Py.str) (w : World)
    (q1 q2 : Py.str) (songs : list Song) (m1 m2 : Model) (k1 k2 : Z) :
  corpus_encodings song_texts (trace (run_requests requests fresh)) <= 1
  /\ (let w1 := snd (get_recommendations_fast q1 songs (Some m1) k1 w) in
      let w2 := snd (get_recommendations_fast q2 songs (Some m2) k2 w1) in
      embeddings_cache w2 = embeddings_cache w1
      /\ exists events,
           trace w2 = trace w1 ++ events
           /\ forallb (fun e => negb (is_corpus_encoding song_texts e)) events = true).
Proof.
  split.
  - apply (run_requests_once requests fresh embedded_once_fresh).
  - cbv zeta. rewrite !get_recommendations_fast_world.
    set (w1 := world_after q1 songs (Some m1) w).
    destruct (survivors songs) as [|s0 rest] eqn:Es.
    + unfold world_after. rewrite Es. split; [reflexivity|].
      exists []. now rewrite app_nil_r.
    + pose proof (world_after_cached q1 songs m1 w s0 rest Es) as Hc.
      fold w1 in Hc. unfold world_after. rewrite Es.
      rewrite (after_embeddings_hit _ _ _ Hc).
      destruct Hc as [v Hv]. rewrite Hv. destruct v as [embs|].
      * split; [reflexivity|]. exists [EncodeQuery q2]. split; reflexivity.
      * split; [reflexivity|]. exists []. now rewrite app_nil_r.
Qed.

(** ** C10: missing keys *)




(** * Part IV: further properties of the code

    ** Preprocessing *)

Lemma join_all_space sep lines :
  forallb Py.isspace sep = true ->
  forallb Py.isspace (Py.join sep lines) = forallb (forallb Py.isspace) lines.
Proof.
  intros Hsep. induction lines as [|p rest IH]; [reflexivity|].
  destruct rest as [|p' rest'].
  - simpl. now rewrite andb_true_r.
  - change (Py.join sep (p :: p' :: rest')) with (p ++ sep ++ Py.join sep (p' :: rest')).
    rewrite !forallb_app, Hsep, IH. reflexivity.
Qed.

(** X1: a record is kept by [preprocess_songs] exactly when one of its
    lyrics lines holds a character that is not whitespace; a record whose
    lines are all blank is dropped like one without lines. *)
Theorem X1_kept_iff_visible_character (song : Song) :
  embeddable song = negb (forallb (forallb Py.isspace) (get_lyrics song)).
Proof.
  unfold embeddable, lyrics_text.
  rewrite <- (join_all_space (Py.lit " ")) by reflexivity.
  destruct (Py.strip _) eqn:E.
  - apply strip_nil_iff in E. now rewrite E.
  - simpl. destruct (forallb Py.isspace _) eqn:F; [|reflexivity].
    apply strip_nil_iff in F. congruence.
Qed.

(** X2: preprocessing a corpus made of two parts gives the texts and the
    names of the first part followed by those of the second. *)
Theorem X2_preprocess_app (songs1 songs2 : list Song) :
  preprocess_songs (songs1 ++ songs2) =
  (fst (preprocess_songs songs1) ++ fst (preprocess_songs songs2),
   snd (preprocess_songs songs1) ++ snd (preprocess_songs songs2)).
Proof.
  rewrite !preprocess_songs_eq. cbn [fst snd]. unfold survivors.
  now rewrite List.filter_app, !List.map_app.
Qed.

(** ** The embedding cache *)

(** X3: [get_song_embeddings] never raises, and what it returned for a
    list of texts is what every later call on the same texts returns,
    whatever model is passed, without touching cache or trace. *)
Theorem X3_embeddings_cached_value (song_texts : list Py.str)
    (_model other : option Model) (w : World) :
  exists v w1,
    get_song_embeddings song_texts _model w = (Returned v, w1)
    /\ get_song_embeddings song_texts other w1 = (Returned v, w1).
Proof.
  unfold get_song_embeddings, cache_resource.
  destruct (embeddings_cache w !! song_texts) as [v|] eqn:E.
  - exists v, w. now rewrite E.
  - destruct _model as [m|]; [destruct song_texts as [|t ts]|]; simpl;
      eexists _, _; (split; [reflexivity|]); simpl; now rewrite lookup_insert_eq.
Qed.

(** X4: when the cache holds [None] for the texts of a corpus (the value
    [get_song_embeddings] stores when it is called without a model), a
    request with a loaded model returns the empty list and leaves the
    state as it is: the model is never asked. *)
Theorem X4_stale_none_blocks {FL : FloatLib} {AS : ArgSort}
    (m : Model) (sermon_text : Py.str) (songs : list Song) (top_k : Z)
    (w : World) :
  embeddings_cache w !! fst (preprocess_songs songs) = Some None ->
  get_recommendations_fast sermon_text songs (Some m) top_k w = (Returned [], w).
Proof.
  intros Hc. unfold get_recommendations_fast.
  destruct songs as [|s0 songs0]; [reflexivity|].
  destruct (preprocess_songs (s0 :: songs0)) as [texts names]. cbn [fst] in Hc.
  destruct texts; [reflexivity|].
  unfold mbind, App_bind, bind, get_song_embeddings, cache_resource.
  now rewrite Hc.
Qed.

Lemma X4_stale_none_blocks_witness :
  get_recommendations_fast Demo.query Demo.scenario_a (Some Demo.model) 5
    More.after_call_without_model
  = (Returned [], More.after_call_without_model).
Proof.
  apply (X4_stale_none_blocks Demo.model Demo.query Demo.scenario_a 5
           More.after_call_without_model).
  vm_compute. reflexivity.
Defined.

(** X5: a request never removes or replaces an entry of the embedding
    cache. *)
Theorem X5_cache_entries_kept {FL : FloatLib} {AS : ArgSort}
    (sermon_text : Py.str) (songs : list Song) (_model : option Model)
    (top_k : Z) (w : World) (t : list Py.str) (v : option (list (list Q))) :
  embeddings_cache w !! t = Some v ->
  embeddings_cache (snd (get_recommendations_fast sermon_text songs _model top_k w)) !! t
  = Some v.
Proof.
  intros Ht. rewrite get_recommendations_fast_world. unfold world_after.
  destruct _model as [m|]; [|exact Ht]. destruct (survivors songs); [exact Ht|].
  cbv zeta.
  assert (H1 : embeddings_cache (after_embeddings m (fst (preprocess_songs songs)) w) !! t
               = Some v).
  { unfold after_embeddings.
    destruct (embeddings_cache w !! fst (preprocess_songs songs)) eqn:E; [exact Ht|].
    simpl. rewrite lookup_insert_ne; [exact Ht|].
    intros Heq. rewrite Heq in E. congruence. }
  destruct (embeddings_cache w !! fst (preprocess_songs songs)) as [[?|]|]; exact H1.
Qed.

Lemma X5_cache_entries_kept_witness :
  embeddings_cache
    (snd (get_recommendations_fast Demo.query Demo.twins (Some Demo.model) 5
            More.after_call_without_model))
    !! fst (preprocess_songs Demo.scenario_a)
  = Some None.
Proof.
  apply (X5_cache_entries_kept Demo.query Demo.twins (Some Demo.model) 5
           More.after_call_without_model).
  vm_compute. reflexivity.
Defined.

(** ** The result of a request *)

Lemma omap_all_Some_length {A B} (f : A -> option B) l :
  Forall (fun x => is_Some (f x)) l -> length (omap f l) = length l.
Proof.
  induction 1 as [|x l [y Hy] _ IH]; [reflexivity|]. csimpl. rewrite Hy. simpl.
  now rewrite IH.
Qed.

Lemma find_song_found songs s name :
  In s songs -> filename s = Some name ->
  exists sd, find_song songs name = Some sd /\ filename sd = Some name.
Proof.
  intros Hin Hf. destruct (find_song songs name) as [sd|] eqn:E.
  - exists sd. split; [reflexivity|]. now apply find_song_Some in E.
  - unfold find_song in E. eapply find_none in E; [|exact Hin].
    apply bool_decide_eq_false in E. contradiction.
Qed.

Lemma emitted_named songs s score :
  In s songs -> filename s <> None -> is_Some (emitted songs (get_filename s) score).
Proof.
  intros Hin Hf. destruct (filename s) as [name|] eqn:E; [|congruence].
  destruct (find_song_found songs s name Hin E) as (sd & Hfind & Hsd).
  unfold emitted, get_filename. rewrite E, Hfind.
  unfold song_truthy. rewrite Hsd. eauto.
Qed.

Lemma slice_to_prefix {A} (k k' : Z) (l : list A) :
  (0 <= k <= k')%Z -> exists rest, Py.slice_to k' l = Py.slice_to k l ++ rest.
Proof.
  intros Hk. unfold Py.slice_to.
  destruct (Z.leb_spec 0 k); [|lia]. destruct (Z.leb_spec 0 k'); [|lia].
  exists (firstn (Z.to_nat k' - Z.to_nat k) (skipn (Z.to_nat k) l)).
  replace (Z.to_nat k') with (Z.to_nat k + (Z.to_nat k' - Z.to_nat k)) at 1 by lia.
  symmetry. apply take_take_drop.
Qed.

Lemma top_indices_NoDup {AS : ArgSort} sims k : NoDup (top_indices_of sims k).
Proof.
  unfold top_indices_of. destruct (slice_to_firstn k (rev (argsort sims))) as [n ->].
  eapply sublist_NoDup; [|apply sublist_take].
  apply NoDup_ListNoDup, NoDup_rev.
  eapply Permutation_NoDup; [symmetry; apply argsort_perm|]. apply seq_NoDup.
Qed.

Lemma survivors_names_NoDup songs :
  NoDup (List.map get_filename songs) ->
  NoDup (List.map get_filename (survivors songs)).
Proof.
  intros Hnd. eapply sublist_NoDup; [exact Hnd|].
  apply (fmap_sublist get_filename), survivors_sublist.
Qed.

Lemma emitted_at_filename songs names sims i r :
  emitted_at songs names sims i = Some r -> rec_filename r = nth i names [].
Proof.
  unfold emitted_at. intros H. apply emitted_inv in H as (sd & _ & ->). reflexivity.
Qed.

Lemma omap_emitted_names_NoDup songs names sims tops :
  NoDup names -> NoDup tops -> Forall (fun i => i < length names) tops ->
  NoDup (List.map rec_filename (omap (emitted_at songs names sims) tops)).
Proof.
  intros Hn Ht Hr. induction Ht as [|i tops Hi Ht IH]; csimpl; [constructor|].
  apply Forall_cons in Hr as [Hir Hr].
  destruct (emitted_at songs names sims i) as [r|] eqn:Er; [|auto].
  simpl. constructor; [|auto].
  intros Hin. apply list_elem_of_In, in_map_iff in Hin as (r' & Hname & Hin).
  apply list_elem_of_In, list_elem_of_omap in Hin as (j & Hj & Ej).
  rewrite Forall_forall in Hr. specialize (Hr j Hj).
  apply emitted_at_filename in Er, Ej. rewrite Er, Ej in Hname.
  assert (i = j); [|subst; contradiction].
  apply NoDup_ListNoDup in Hn. rewrite (NoDup_nth names []) in Hn. symmetry. auto.
Qed.

Lemma StronglySorted_nth_error {A} (R : A -> A -> Prop) l p p' x y :
  StronglySorted R l -> p < p' ->
  nth_error l p = Some x -> nth_error l p' = Some y -> R x y.
Proof.
  intros Hs. revert p p'. induction Hs as [|a l Hs IH Hall]; intros p p' Hlt Hx Hy.
  - destruct p; discriminate.
  - destruct p' as [|p']; [lia|]. simpl in Hy. destruct p as [|p].
    + injection Hx as <-. rewrite Forall_forall in Hall.
      apply Hall, list_elem_of_In, (nth_error_In _ _ Hy).
    + simpl in Hx. apply (IH p p'); [lia|assumption|assumption].
Qed.

(** X6: when every record with text has a filename, a request with
    [top_k >= 0] returns exactly [min top_k n] recommendations, [n] being
    the number of records with text. *)
Theorem X6_exact_length {FL : FloatLib} {AS : ArgSort}
    (m : Model) (sermon_text : Py.str) (songs : list Song) (top_k : Z)
    (w : World) :
  cache_consistent m w ->
  (forall s, In s (survivors songs) -> filename s <> None) ->
  (0 <= top_k)%Z ->
  exists recs w',
    get_recommendations_fast sermon_text songs (Some m) top_k w = (Returned recs, w')
    /\ length recs = Nat.min (Z.to_nat top_k) (length (survivors songs)).
Proof.
  intros Hc Hkeys Hk. destruct (survivors songs) as [|s0 rest] eqn:Es.
  - rewrite get_recommendations_fast_empty by exact Es.
    eexists _, _. split; [reflexivity|]. simpl. lia.
  - rewrite get_recommendations_fast_run by (auto; congruence).
    eexists _, _. split; [reflexivity|]. rewrite <- Es in *.
    unfold ranking. rewrite preprocess_songs_eq.
    set (sims := similarities_of m sermon_text (List.map lyrics_text (survivors songs))).
    assert (Hlen : length sims = length (survivors songs)).
    { unfold sims, similarities_of. now rewrite !length_map. }
    rewrite omap_all_Some_length.
    + rewrite top_indices_length, Hlen. destruct (Z.leb_spec 0 top_k); [reflexivity|lia].
    + eapply Forall_impl; [apply top_indices_in_range|]. intros i Hi. simpl in Hi.
      rewrite Hlen in Hi. unfold emitted_at.
      destruct (nth_error (survivors songs) i) as [s|] eqn:Ei.
      2:{ apply nth_error_None in Ei. lia. }
      erewrite (nth_error_nth (List.map get_filename (survivors songs)));
        [|rewrite nth_error_map, Ei; reflexivity].
      apply nth_error_In in Ei. apply emitted_named; [|auto].
      now apply survivors_In in Ei.
Qed.

Lemma X6_exact_length_witness :
  exists recs w',
    get_recommendations_fast Demo.query Demo.scenario_a (Some Demo.model) 5 fresh
    = (Returned recs, w')
    /\ length recs = 2.
Proof.
  apply (X6_exact_length Demo.model Demo.query Demo.scenario_a 5 fresh).
  - apply fresh_consistent.
  - intros s [<-|[<-|[]]]; discriminate.
  - lia.
Defined.

(** X7: for [0 <= k <= k'] the result for [top_k = k] is the beginning of
    the result for [top_k = k']. *)
Theorem X7_prefix {FL : FloatLib} {AS : ArgSort}
    (m : Model) (sermon_text : Py.str) (songs : list Song) (k k' : Z)
    (w : World) :
  cache_consistent m w -> (0 <= k <= k')%Z ->
  exists recs rest w1 w2,
    get_recommendations_fast sermon_text songs (Some m) k w = (Returned recs, w1)
    /\ get_recommendations_fast sermon_text songs (Some m) k' w
       = (Returned (recs ++ rest), w2).
Proof.
  intros Hc Hk. destruct (survivors songs) as [|s0 rest] eqn:Es.
  - rewrite !get_recommendations_fast_empty by exact Es.
    exists [], [], w, w. split; reflexivity.
  - rewrite !get_recommendations_fast_run by (auto; congruence).
    unfold ranking. destruct (preprocess_songs songs) as [texts names].
    unfold top_indices_of.
    destruct (slice_to_prefix k k' (rev (argsort (similarities_of m sermon_text texts))) Hk)
      as [more ->].
    rewrite omap_app. eexists _, _, _, _. split; reflexivity.
Qed.

Lemma X7_prefix_witness :
  exists recs rest w1 w2,
    get_recommendations_fast Demo.query Demo.scenario_a (Some Demo.model) 1 fresh
    = (Returned recs, w1)
    /\ get_recommendations_fast Demo.query Demo.scenario_a (Some Demo.model) 5 fresh
       = (Returned (recs ++ rest), w2).
Proof.
  apply (X7_prefix Demo.model Demo.query Demo.scenario_a 1 5 fresh).
  - apply fresh_consistent.
  - lia.
Defined.

(** X8: in a corpus where no two records have the same name, no filename
    is recommended twice by one request. *)
Theorem X8_no_song_twice {FL : FloatLib} {AS : ArgSort}
    (m : Model) (sermon_text : Py.str) (songs : list Song) (top_k : Z)
    (w : World) :
  cache_consistent m w ->
  NoDup (List.map get_filename songs) ->
  exists recs w',
    get_recommendations_fast sermon_text songs (Some m) top_k w = (Returned recs, w')
    /\ NoDup (List.map rec_filename recs).
Proof.
  intros Hc Hnd. destruct (survivors songs) as [|s0 rest] eqn:Es.
  - rewrite get_recommendations_fast_empty by exact Es.
    eexists _, _. split; [reflexivity|constructor].
  - rewrite get_recommendations_fast_run by (auto; congruence).
    eexists _, _. split; [reflexivity|]. unfold ranking.
    rewrite preprocess_songs_eq. apply omap_emitted_names_NoDup.
    + apply survivors_names_NoDup, Hnd.
    + apply top_indices_NoDup.
    + eapply Forall_impl; [apply top_indices_in_range|]. intros i Hi. simpl in Hi.
      unfold similarities_of in Hi. now rewrite !length_map in *.
Qed.

Lemma X8_no_song_twice_witness :
  exists recs w',
    get_recommendations_fast Demo.query Demo.scenario_a (Some Demo.model) 5 fresh
    = (Returned recs, w')
    /\ NoDup (List.map rec_filename recs).
Proof.
  apply (X8_no_song_twice Demo.model Demo.query Demo.scenario_a 5 fresh).
  - apply fresh_consistent.
  - apply (bool_decide_unpack _). vm_compute. exact I.
Defined.

(** ** [main] *)

(** X11: a run of [main] never raises, in whatever state the cache is: an
    exception of the request is caught by the handler. *)
Theorem X11_main_returns {FL : FloatLib} {AS : ArgSort}
    (songs_data : list Song) (model : option Model) (sermon_text : Py.str)
    (clicked : bool) (w : World) :
  exists w', main songs_data model sermon_text clicked w = (Returned tt, w').
Proof.
  unfold main. destruct songs_data as [|s0 songs0]; [eexists; reflexivity|].
  destruct model as [m|]; [|eexists; reflexivity].
  set (songs := s0 :: songs0).
  destruct (preprocess_songs songs) as [texts names].
  unfold mbind, App_bind, bind. rewrite get_song_embeddings_any.
  unfold emit at 1. destruct clicked; [|eexists; reflexivity].
  destruct (negb _ || negb _); [eexists; reflexivity|].
  unfold try_except.
  destruct (get_recommendations_fast _ _ _ _ _) as [[recs|e] w3].
  - destruct recs; eexists; reflexivity.
  - eexists; reflexivity.
Qed.

(** X12: on a click with a query that is not blank, a corpus whose
    records all lack text is answered with the error message for "no
    recommendations found", and the model is not called. *)
Theorem X12_main_empty_corpus {FL : FloatLib} {AS : ArgSort}
    (m : Model) (songs_data : list Song) (sermon_text : Py.str) (w : World) :
  songs_data <> [] -> survivors songs_data = [] -> Py.strip sermon_text <> [] ->
  exists w',
    main songs_data (Some m) sermon_text true w = (Returned tt, w')
    /\ trace w' = trace w ++ [StSongsLoaded (length songs_data); StError NoRecommendations].
Proof.
  intros Hne Hs Hq. unfold main. destruct songs_data as [|s0 songs0]; [congruence|].
  set (songs := s0 :: songs0) in *.
  rewrite preprocess_songs_eq, Hs. cbn [List.map].
  unfold mbind, App_bind, bind. rewrite get_song_embeddings_any.
  assert (Ht : Py.truthy (Py.strip sermon_text) = true).
  { destruct (Py.strip sermon_text); [congruence|reflexivity]. }
  assert (Ht' : Py.truthy sermon_text = true).
  { destruct sermon_text; [now destruct Hq|reflexivity]. }
  rewrite Ht, Ht'. cbn [negb orb]. unfold emit at 1, try_except.
  rewrite get_recommendations_fast_empty by exact Hs.
  unfold emit. cbn [embeddings_cache trace]. eexists. split; [reflexivity|].
  cbn [trace]. rewrite <- app_assoc. unfold after_embeddings.
  destruct (embeddings_cache w !! []); reflexivity.
Qed.

Lemma X12_main_empty_corpus_witness :
  exists w',
    main [Demo.song "song3" []] (Some Demo.model) Demo.query true fresh = (Returned tt, w')
    /\ trace w' = trace fresh ++ [StSongsLoaded 1; StError NoRecommendations].
Proof.
  apply (X12_main_empty_corpus Demo.model [Demo.song "song3" []] Demo.query fresh).
  - discriminate.
  - reflexivity.
  - discriminate.
Defined.

(** X13: on a click with a query that is not blank, [main] preloads the
    corpus embeddings, asks [get_recommendations_fast] for the top 5 of
    the trimmed query, and shows what it returned: at most five
    recommendations followed by their count, or the error message when
    there are none. *)
Theorem X13_main_shows_top5 {FL : FloatLib} {AS : ArgSort}
    (m : Model) (songs_data : list Song) (sermon_text : Py.str) (w : World) :
  cache_consistent m w -> songs_data <> [] -> Py.strip sermon_text <> [] ->
  exists w1 recs w2 w',
    get_song_embeddings (fst (preprocess_songs songs_data)) (Some m) w
    = (Returned (expected_embeddings m (fst (preprocess_songs songs_data))), w1)
    /\ get_recommendations_fast (Py.strip sermon_text) songs_data (Some m) 5
         (mkWorld (embeddings_cache w1)
                  (trace w1 ++ [StSongsLoaded (length songs_data)]))
       = (Returned recs, w2)
    /\ length recs <= 5
    /\ main songs_data (Some m) sermon_text true w = (Returned tt, w')
    /\ embeddings_cache w' = embeddings_cache w2
    /\ trace w' = trace w2 ++
         match recs with
         | [] => [StError NoRecommendations]
         | _ :: _ => [StRecommendations recs; StRecommended (length recs)]
         end.
Proof.
  intros Hc Hne Hq.
  pose proof (get_song_embeddings_run m (fst (preprocess_songs songs_data)) w Hc) as H1.
  set (w1 := after_embeddings m (fst (preprocess_songs songs_data)) w) in *.
  set (w1' := mkWorld (embeddings_cache w1)
                      (trace w1 ++ [StSongsLoaded (length songs_data)])).
  assert (Hc1 : cache_consistent m w1').
  { apply (after_embeddings_consistent m _ w Hc). }
  assert (exists recs w2,
            get_recommendations_fast (Py.strip sermon_text) songs_data (Some m) 5 w1'
            = (Returned recs, w2) /\ length recs <= 5) as (recs & w2 & Hrun & Hlen).
  { destruct (survivors songs_data) as [|x rest] eqn:Es.
    - rewrite get_recommendations_fast_empty by exact Es.
      eexists _, _. split; [reflexivity|]. simpl. lia.
    - rewrite get_recommendations_fast_run by (auto; congruence).
      eexists _, _. split; [reflexivity|].
      etransitivity; [apply ranking_length|].
      change (0 <=? 5)%Z with true. cbv iota. lia. }
  exists w1, recs, w2.
  exists (mkWorld (embeddings_cache w2)
            (trace w2 ++
             match recs with
             | [] => [StError NoRecommendations]
             | _ :: _ => [StRecommendations recs; StRecommended (length recs)]
             end)).
  split; [exact H1|]. split; [exact Hrun|].
  split; [exact Hlen|].
  unfold main. destruct songs_data as [|s0 songs0]; [congruence|].
  set (songs := s0 :: songs0) in *.
  destruct (preprocess_songs songs) as [texts names] eqn:Ep. cbn [fst] in *.
  unfold mbind, App_bind, bind. rewrite H1.
  assert (Ht : Py.truthy (Py.strip sermon_text) = true).
  { destruct (Py.strip sermon_text); [congruence|reflexivity]. }
  assert (Ht' : Py.truthy sermon_text = true).
  { destruct sermon_text; [now destruct Hq|reflexivity]. }
  rewrite Ht, Ht'. cbn [negb orb]. unfold emit at 1, try_except.
  fold w1'. rewrite Hrun. destruct recs as [|r recs].
  - split; [reflexivity|]. split; reflexivity.
  - split; [|split; reflexivity].
    unfold emit. cbn [embeddings_cache trace]. now rewrite <- app_assoc.
Qed.

Lemma X13_main_shows_top5_witness :
  exists w1 recs w2 w',
    get_song_embeddings (fst (preprocess_songs Demo.scenario_a)) (Some Demo.model) fresh
    = (Returned (expected_embeddings Demo.model (fst (preprocess_songs Demo.scenario_a))),
       w1)
    /\ get_recommendations_fast (Py.strip Demo.query) Demo.scenario_a (Some Demo.model) 5
         (mkWorld (embeddings_cache w1)
                  (trace w1 ++ [StSongsLoaded (length Demo.scenario_a)]))
       = (Returned recs, w2)
    /\ length recs <= 5
    /\ main Demo.scenario_a (Some Demo.model) Demo.query true fresh = (Returned tt, w')
    /\ embeddings_cache w' = embeddings_cache w2
    /\ trace w' = trace w2 ++
         match recs with
         | [] => [StError NoRecommendations]
         | _ :: _ => [StRecommendations recs; StRecommended (length recs)]
         end.
Proof.
  apply (X13_main_shows_top5 Demo.model Demo.scenario_a Demo.query fresh).
  - apply fresh_consistent.
  - discriminate.
  - discriminate.
Defined.

(** ** [keep_only_relevant.py]: the names of [Played.txt] *)

Lemma endswith_app s ext :
  ext <> [] -> PyStr.endswith s ext = true ->
  s = Py.slice_to (- Z.of_nat (length ext)) s ++ ext.
Proof.
  unfold PyStr.endswith, Py.slice_to. intros Hne H. apply bool_decide_eq_true in H.
  destruct (Z.leb_spec 0 (- Z.of_nat (length ext))) as [Hle|Hlt].
  - assert (length ext = 0) by lia. destruct ext; [congruence|discriminate].
  - replace (Z.to_nat (- - Z.of_nat (length ext))) with (length ext) by lia.
    pose proof (firstn_skipn (length s - length ext) s) as F.
    rewrite H in F. symmetry. exact F.
Qed.

Lemma remove_extension_cases exts filename :
  Forall (fun ext => ext <> []) exts ->
  (remove_extension exts filename = filename
   /\ forallb (fun ext => negb (PyStr.endswith filename ext)) exts = true)
  \/ exists before ext after,
       exts = before ++ ext :: after
       /\ forallb (fun e => negb (PyStr.endswith filename e)) before = true
       /\ filename = remove_extension exts filename ++ ext.
Proof.
  induction 1 as [|e exts He _ IH]; simpl; [left; auto|].
  destruct (PyStr.endswith filename e) eqn:E.
  - right. exists [], e, exts. simpl. repeat split. now apply endswith_app.
  - destruct IH as [[Hr Hall]|(before & ext & after & Hsplit & Hbefore & Heq)].
    + left. simpl. auto.
    + right. exists (e :: before), ext, after. simpl. rewrite E. simpl.
      repeat split; [now f_equal|assumption|assumption].
Qed.

Lemma extensions_nonempty : Forall (fun ext => ext <> []) extensions.
Proof. repeat constructor; discriminate. Qed.

Lemma remove_extension_nil s :
  s <> [] -> remove_extension extensions s = [] <-> In s extensions.
Proof.
  intros Hne. split.
  - intros Hr.
    destruct (remove_extension_cases extensions s extensions_nonempty)
      as [[Heq _]|(before & ext & after & Hsplit & _ & Heq)].
    + congruence.
    + rewrite Hr in Heq. simpl in Heq. subst s. rewrite Hsplit.
      apply in_or_app. right. now left.
  - intros [<-|[<-|[<-|[]]]]; reflexivity.
Qed.

Lemma clean_fold_spec lines U L :
  NoDup L -> (forall x, x ∈ U <-> In x L) ->
  let '(U', L') := fold_left clean_step lines (U, L) in
  NoDup L'
  /\ (forall x, x ∈ U' <-> In x L')
  /\ (forall x, In x L' <-> In x L \/ exists line, In line lines /\ played_name line = Some x).
Proof.
  revert U L. induction lines as [|line lines IH]; intros U L Hnd HU; simpl.
  - split; [exact Hnd|]. split; [exact HU|]. intros x. split; [auto|].
    intros [H|(l & [] & _)]. exact H.
  - unfold played_name at 1.
    destruct (Py.truthy (Py.strip line)) eqn:Et.
    + set (name := remove_extension extensions (Py.strip line)).
      case_bool_decide as Hin.
      * specialize (IH U L Hnd HU).
        destruct (fold_left clean_step lines (U, L)) as [U' L'].
        destruct IH as (H1 & H2 & H3).
        split; [exact H1|]. split; [exact H2|]. intros x. split.
        -- intros Hx. apply H3 in Hx as [Hx|(l & Hl & Hn)]; [auto|].
           right. exists l. auto.
        -- intros [Hx|(l & [<-|Hl] & Hn)]; apply H3; [auto| |right; eauto].
           left. unfold played_name in Hn. rewrite Et in Hn. injection Hn as <-.
           now apply HU.
      * assert (Hnd' : NoDup (L ++ [name])).
        { apply NoDup_app. repeat split; [assumption| |apply NoDup_singleton].
          intros x Hx Hx'. apply list_elem_of_In in Hx'. destruct Hx' as [<-|[]].
          apply Hin, HU, list_elem_of_In, Hx. }
        assert (HU' : forall x, x ∈ ({[name]} ∪ U : gset Py.str) <-> In x (L ++ [name])).
        { intros x. rewrite elem_of_union, elem_of_singleton, in_app_iff, HU.
          simpl. intuition. }
        specialize (IH _ _ Hnd' HU').
        destruct (fold_left clean_step lines _) as [U' L'].
        destruct IH as (H1 & H2 & H3).
        split; [exact H1|]. split; [exact H2|]. intros x. split.
        -- intros Hx. apply H3 in Hx as [Hx|(l & Hl & Hn)].
           ++ apply in_app_iff in Hx as [Hx|[<-|[]]]; [auto|].
              right. exists line. split; [auto|]. unfold played_name. now rewrite Et.
           ++ right. exists l. auto.
        -- intros [Hx|(l & [<-|Hl] & Hn)]; apply H3.
           ++ left. apply in_app_iff. auto.
           ++ left. unfold played_name in Hn. rewrite Et in Hn. injection Hn as <-.
              apply in_app_iff. simpl. auto.
           ++ right. eauto.
    + specialize (IH U L Hnd HU).
      destruct (fold_left clean_step lines (U, L)) as [U' L'].
      destruct IH as (H1 & H2 & H3).
      split; [exact H1|]. split; [exact H2|]. intros x. split.
      * intros Hx. apply H3 in Hx as [Hx|(l & Hl & Hn)]; [auto|]. right. eauto.
      * intros [Hx|(l & [<-|Hl] & Hn)]; apply H3; [auto| |right; eauto].
        unfold played_name in Hn. rewrite Et in Hn. discriminate.
Qed.

Lemma clean_lines_spec (lines : list Py.str) :
  NoDup (snd (clean_lines lines))
  /\ (forall x, x ∈ fst (clean_lines lines) <-> In x (snd (clean_lines lines)))
  /\ (forall x, x ∈ fst (clean_lines lines) <->
        exists line, In line lines /\ Py.strip line <> []
                     /\ x = remove_extension extensions (Py.strip line)).
Proof.
  unfold clean_lines.
  pose proof (clean_fold_spec lines ∅ [] (@NoDup_nil_2 _)) as H.
  destruct (fold_left clean_step lines (∅, [])) as [U L]. cbn [fst snd].
  destruct H as (H1 & H2 & H3).
  { intros x. rewrite elem_of_empty. simpl. tauto. }
  repeat split; auto; try apply H2.
  - intros Hx. apply H2, H3 in Hx as [[]|(l & Hl & Hn)]. exists l.
    unfold played_name in Hn. destruct (Py.strip l) eqn:E; [discriminate|].
    simpl in Hn. injection Hn as <-. repeat split; auto.
  - intros (l & Hl & Hne & ->). apply H2, H3. right. exists l. split; [auto|].
    unfold played_name. destruct (Py.strip l); [congruence|reflexivity].
Qed.

Lemma clean_lines_blank lines :
  (forall line, In line lines -> Py.strip line = []) ->
  fst (clean_lines lines) = ∅.
Proof.
  intros Hb. apply elem_of_equiv_empty_L. intros x Hx.
  apply (clean_lines_spec lines) in Hx as (line & Hin & Hne & _).
  apply Hne, Hb, Hin.
Qed.

Lemma clean_lines_nonblank lines line :
  In line lines -> Py.strip line <> [] -> fst (clean_lines lines) <> ∅.
Proof.
  intros Hin Hne He.
  destruct (clean_lines_spec lines) as (_ & _ & HU).
  eapply (not_elem_of_empty (C:=gset Py.str)). rewrite <- He. apply HU. eauto.
Qed.

Lemma str_le_total a b : PyStr.le a b = true \/ PyStr.le b a = true.
Proof.
  revert b. induction a as [|x a IH]; intros [|y b]; simpl; auto.
  destruct (N.ltb_spec x y); [auto|]. destruct (N.ltb_spec y x); [auto|].
  assert (x = y) as -> by lia. rewrite N.eqb_refl. simpl. apply IH.
Qed.

Lemma Sorted_weaken {A} (R R' : A -> A -> Prop) l :
  (forall a b, R a b -> R' a b) -> Sorted R l -> Sorted R' l.
Proof.
  intros HR. induction 1 as [|a l Hs IH Hhd]; constructor; [exact IH|].
  destruct Hhd; constructor. auto.
Qed.

#[local] Instance str_le_Total : Total (fun a b => Is_true (PyStr.le a b)).
Proof.
  intros a b. destruct (str_le_total a b) as [H|H]; [left|right];
    now apply Is_true_true.
Qed.

Lemma sorted_Sorted names :
  Sorted (fun a b => PyStr.le a b = true) (PyStr.sorted names).
Proof.
  eapply Sorted_weaken;
    [|apply (Sorted_merge_sort (fun a b => Is_true (PyStr.le a b)))].
  intros a b H. now apply Is_true_true.
Qed.

Lemma sorted_Permutation names : Permutation (PyStr.sorted names) names.
Proof. apply (merge_sort_Permutation (fun a b => Is_true (PyStr.le a b))). Qed.

(** ** [keep_only_relevant.py]: the filtered corpus *)

Lemma filter_fold played songs acc removed :
  fold_left (filter_step played) songs (acc, removed)
  = (acc ++ List.filter (fun song => bool_decide (filename_or_empty song ∈ played)) songs,
     removed + (length songs
                - length (List.filter (fun song => bool_decide (filename_or_empty song ∈ played)) songs))).
Proof.
  revert acc removed. induction songs as [|s songs IH]; intros acc removed; simpl.
  - rewrite app_nil_r. f_equal. lia.
  - pose proof (filter_length_le (fun song => bool_decide (filename_or_empty song ∈ played)) songs) as Hle.
    destruct (bool_decide (filename_or_empty s ∈ played)); rewrite IH; simpl.
    + rewrite <- app_assoc. reflexivity.
    + f_equal. lia.
Qed.

Lemma filter_songs_eq played songs :
  filter_songs played songs
  = List.filter (fun song => bool_decide (filename_or_empty song ∈ played)) songs.
Proof. unfold filter_songs, filter_loop. rewrite filter_fold. reflexivity. Qed.

Lemma filter_songs_In played songs s :
  In s (filter_songs played songs) <-> In s songs /\ filename_or_empty s ∈ played.
Proof. rewrite filter_songs_eq, filter_In, bool_decide_eq_true. reflexivity. Qed.

Lemma filter_songs_sublist played songs : sublist (filter_songs played songs) songs.
Proof.
  rewrite filter_songs_eq. induction songs as [|s songs IH]; simpl.
  - constructor.
  - destruct (bool_decide _); now constructor.
Qed.

Lemma filter_songs_idem played songs :
  filter_songs played (filter_songs played songs) = filter_songs played songs.
Proof.
  rewrite !filter_songs_eq. induction songs as [|s l IH]; simpl; [reflexivity|].
  destruct (bool_decide _) eqn:E; simpl; [rewrite E|]; congruence.
Qed.

(** ** [keep_only_relevant.py]: properties *)

(** X14: [clean_played_file] returns the empty set and changes no file
    when [Played.txt] is missing or cannot be read. When the file is
    read and the write back completes, the returned set holds exactly
    the names obtained from the lines that are not blank, by trimming
    the line and removing one extension. When the write back raises,
    the result is the empty set again: [Played.txt] is as the failed
    write left it and the other files are untouched. *)
Theorem X14_returned_names (write_played : Write (list Py.str)) (disk : Disk) :
  match played_txt disk, write_played with
  | Content lines, Done =>
      forall x, x ∈ fst (clean_played_file Done disk) <->
        exists line, In line lines /\ Py.strip line <> []
                     /\ x = remove_extension extensions (Py.strip line)
  | Content lines, Failed remains =>
      clean_played_file (Failed remains) disk
      = (∅, mkDisk remains (combined_songs disk) (combined_songs_backup disk))
  | _, _ => clean_played_file write_played disk = (∅, disk)
  end.
Proof.
  unfold clean_played_file.
  destruct (played_txt disk) as [| |lines]; try reflexivity.
  destruct write_played as [|remains].
  - intros x. destruct (clean_lines_spec lines) as (_ & _ & H).
    destruct (clean_lines lines) as [U L]. exact (H x).
  - destruct (clean_lines lines) as [U L]. reflexivity.
Qed.

(** X15: the extension loop removes at most one suffix: either the name
    ends in none of .pdf, .txt, .json and is unchanged, or the name is
    the result followed by the first of the three it ends in. *)
Theorem X15_one_extension_removed (filename : Py.str) :
  (remove_extension extensions filename = filename
   /\ forallb (fun ext => negb (PyStr.endswith filename ext)) extensions = true)
  \/ exists before ext after,
       extensions = before ++ ext :: after
       /\ forallb (fun e => negb (PyStr.endswith filename e)) before = true
       /\ filename = remove_extension extensions filename ++ ext.
Proof. apply remove_extension_cases, extensions_nonempty. Qed.

(** X16: a record without the key 'filename' is looked up under the
    empty name: the filter keeps it exactly when some line of
    [Played.txt] is, once trimmed, nothing but one of the extensions. *)
Theorem X16_records_without_filename (lines : list Py.str) (songs : list Song)
    (s : Song) :
  In s songs -> filename s = None ->
  (In s (filter_songs (fst (clean_lines lines)) songs) <->
   exists line, In line lines /\ In (Py.strip line) extensions).
Proof.
  intros Hin Hf. rewrite filter_songs_In. unfold filename_or_empty. rewrite Hf.
  destruct (clean_lines_spec lines) as (_ & _ & H). rewrite H. split.
  - intros (_ & line & Hl & Hne & Heq). exists line. split; [exact Hl|].
    apply remove_extension_nil; auto.
  - intros (line & Hl & Hext). split; [exact Hin|]. exists line.
    assert (Hne : Py.strip line <> []).
    { destruct Hext as [<-|[<-|[<-|[]]]]; discriminate. }
    split; [exact Hl|]. split; [exact Hne|]. symmetry.
    now apply remove_extension_nil.
Qed.

Lemma X16_records_without_filename_witness :
  In (mkSong None (Some [Py.lit "z"])) (filter_songs (fst (clean_lines PlayedDemo.played_lines)) PlayedDemo.corpus)
  <-> exists line, In line PlayedDemo.played_lines /\ In (Py.strip line) extensions.
Proof.
  apply (X16_records_without_filename PlayedDemo.played_lines PlayedDemo.corpus).
  - simpl. auto.
  - reflexivity.
Defined.

(** X17: when [Played.txt] can be read and the write back completes,
    [clean_played_file] leaves it with one line per returned name, each
    name once, in ascending order of code points, each followed by a
    newline; the other files are left as they were. *)
Theorem X17_played_rewritten (disk : Disk) (lines : list Py.str) :
  played_txt disk = Content lines ->
  exists names,
    played_txt (snd (clean_played_file Done disk))
    = Content (List.map (fun name => name ++ [10%N]) names)
    /\ Sorted (fun a b => PyStr.le a b = true) names
    /\ NoDup names
    /\ (forall x, In x names <-> x ∈ fst (clean_played_file Done disk))
    /\ combined_songs (snd (clean_played_file Done disk)) = combined_songs disk
    /\ combined_songs_backup (snd (clean_played_file Done disk))
       = combined_songs_backup disk.
Proof.
  intros Hp. unfold clean_played_file. rewrite Hp.
  destruct (clean_lines_spec lines) as (Hnd & HU & _).
  destruct (clean_lines lines) as [U L]. cbn [fst snd] in *.
  exists (PyStr.sorted L). split; [reflexivity|].
  pose proof (sorted_Permutation L) as Hperm.
  split; [|split; [|split; [|split; reflexivity]]].
  - apply sorted_Sorted.
  - now rewrite Hperm.
  - intros x. rewrite HU, <- !list_elem_of_In. now rewrite Hperm.
Qed.

Lemma X17_played_rewritten_witness :
  exists names,
    played_txt (snd (clean_played_file Done PlayedDemo.disk))
    = Content (List.map (fun name => name ++ [10%N]) names)
    /\ Sorted (fun a b => PyStr.le a b = true) names
    /\ NoDup names
    /\ (forall x, In x names <-> x ∈ fst (clean_played_file Done PlayedDemo.disk))
    /\ combined_songs (snd (clean_played_file Done PlayedDemo.disk))
       = combined_songs PlayedDemo.disk
    /\ combined_songs_backup (snd (clean_played_file Done PlayedDemo.disk))
       = combined_songs_backup PlayedDemo.disk.
Proof.
  apply (X17_played_rewritten PlayedDemo.disk PlayedDemo.played_lines).
  reflexivity.
Defined.

(** X18: [main] touches neither [combined_songs.json] nor its backup
    when [Played.txt] is missing, unreadable or has only blank lines, or
    when [combined_songs.json] is missing or unreadable, whatever the
    writes would do: no backup is written unless the corpus is
    filtered. *)
Theorem X18_main_leaves_corpus (write_played : Write (list Py.str))
    (write_backup write_songs : Write (list Song)) (disk : Disk) :
  (forall lines, played_txt disk = Content lines ->
                 forall line, In line lines -> Py.strip line = [])
  \/ (forall songs, combined_songs disk <> Content songs) ->
  combined_songs (relevant_main write_played write_backup write_songs disk)
  = combined_songs disk
  /\ combined_songs_backup (relevant_main write_played write_backup write_songs disk)
     = combined_songs_backup disk.
Proof.
  intros H. unfold relevant_main, clean_played_file.
  destruct (played_txt disk) as [| |lines] eqn:Hp;
    try (rewrite bool_decide_eq_true_2 by reflexivity; split; reflexivity).
  destruct (clean_lines lines) as [U L] eqn:Ec.
  destruct write_played as [|remains];
    [|rewrite bool_decide_eq_true_2 by reflexivity; split; reflexivity].
  case_bool_decide as HU; [split; reflexivity|].
  destruct H as [Hb|Hc].
  - exfalso. apply HU. pose proof (clean_lines_blank lines (Hb lines eq_refl)) as He.
    rewrite Ec in He. exact He.
  - unfold filter_songs_json. cbn [combined_songs].
    destruct (combined_songs disk) as [| |songs] eqn:Hs; try (split; reflexivity).
    exfalso. now apply (Hc songs).
Qed.

Lemma X18_main_leaves_corpus_witness :
  combined_songs (relevant_main Done Done Done PlayedDemo.blank_disk)
  = combined_songs PlayedDemo.blank_disk
  /\ combined_songs_backup (relevant_main Done Done Done PlayedDemo.blank_disk)
     = combined_songs_backup PlayedDemo.blank_disk.
Proof.
  apply (X18_main_leaves_corpus Done Done Done PlayedDemo.blank_disk). left.
  intros lines Hl line Hin. injection Hl as <-.
  destruct Hin as [<-|[<-|[]]]; reflexivity.
Defined.

(** X19: [Played.txt] has a line that is not blank and
    [combined_songs.json] can be read. When the three writes complete,
    [main] leaves the corpus as it was in the backup and replaces the
    corpus by the records whose filename ('' when the key is missing) is
    one of the played names, in their original order. When the write of
    [Played.txt] raises, [main] stops before filtering and both corpus
    files are untouched; when the write of the backup raises, the
    corpus is untouched; when only the write of the corpus raises, the
    backup holds the corpus as it was. *)
Theorem X19_main_filters (disk : Disk) (lines : list Py.str)
    (songs : list Song) (line0 : Py.str) :
  played_txt disk = Content lines -> combined_songs disk = Content songs ->
  In line0 lines -> Py.strip line0 <> [] ->
  (exists kept,
     combined_songs (relevant_main Done Done Done disk) = Content kept
     /\ combined_songs_backup (relevant_main Done Done Done disk) = Content songs
     /\ sublist kept songs
     /\ (forall s, In s kept <->
           In s songs
           /\ exists line, In line lines /\ Py.strip line <> []
                /\ filename_or_empty s = remove_extension extensions (Py.strip line)))
  /\ (forall remains write_backup write_songs,
        relevant_main (Failed remains) write_backup write_songs disk
        = mkDisk remains (Content songs) (combined_songs_backup disk))
  /\ (forall remains write_songs,
        combined_songs (relevant_main Done (Failed remains) write_songs disk) = Content songs
        /\ combined_songs_backup (relevant_main Done (Failed remains) write_songs disk) = remains)
  /\ (forall remains,
        combined_songs (relevant_main Done Done (Failed remains) disk) = remains
        /\ combined_songs_backup (relevant_main Done Done (Failed remains) disk)
           = Content songs).
Proof.
  intros Hp Hs Hin Hne. unfold relevant_main, clean_played_file. rewrite Hp.
  destruct (clean_lines_spec lines) as (_ & _ & HU).
  pose proof (clean_lines_nonblank lines line0 Hin Hne) as HUne.
  destruct (clean_lines lines) as [U L]. cbn [fst snd] in *.
  rewrite bool_decide_eq_false_2 by exact HUne.
  unfold filter_songs_json. cbn [combined_songs]. rewrite Hs.
  cbn [snd combined_songs combined_songs_backup].
  split; [|split; [|split]].
  - exists (filter_songs U songs). split; [reflexivity|]. split; [reflexivity|]. split.
    + apply filter_songs_sublist.
    + intros s. rewrite filter_songs_In, HU. reflexivity.
  - intros remains write_backup write_songs.
    rewrite bool_decide_eq_true_2 by reflexivity. reflexivity.
  - intros remains write_songs. split; reflexivity.
  - intros remains. split; reflexivity.
Qed.

Lemma X19_main_filters_witness :
  (exists kept,
     combined_songs (relevant_main Done Done Done PlayedDemo.disk) = Content kept
     /\ combined_songs_backup (relevant_main Done Done Done PlayedDemo.disk)
        = Content PlayedDemo.corpus
     /\ sublist kept PlayedDemo.corpus
     /\ (forall s, In s kept <->
           In s PlayedDemo.corpus
           /\ exists line, In line PlayedDemo.played_lines /\ Py.strip line <> []
                /\ filename_or_empty s = remove_extension extensions (Py.strip line)))
  /\ (forall remains write_backup write_songs,
        relevant_main (Failed remains) write_backup write_songs PlayedDemo.disk
        = mkDisk remains (Content PlayedDemo.corpus) (combined_songs_backup PlayedDemo.disk))
  /\ (forall remains write_songs,
        combined_songs (relevant_main Done (Failed remains) write_songs PlayedDemo.disk)
        = Content PlayedDemo.corpus
        /\ combined_songs_backup (relevant_main Done (Failed remains) write_songs PlayedDemo.disk)
           = remains)
  /\ (forall remains,
        combined_songs (relevant_main Done Done (Failed remains) PlayedDemo.disk) = remains
        /\ combined_songs_backup (relevant_main Done Done (Failed remains) PlayedDemo.disk)
           = Content PlayedDemo.corpus).
Proof.
  apply (X19_main_filters PlayedDemo.disk PlayedDemo.played_lines PlayedDemo.corpus
           (Py.lit "b" ++ [10%N])).
  - reflexivity.
  - reflexivity.
  - simpl. auto.
  - discriminate.
Defined.

(** X20: when its writes complete, filtering a second time with the
    same names leaves the corpus as the first pass wrote it, but
    overwrites the backup with the filtered corpus: the original corpus
    is then in neither file. *)
Theorem X20_second_filter_overwrites_backup (played_filenames : gset Py.str)
    (disk : Disk) (songs : list Song) :
  combined_songs disk = Content songs ->
  let pass1 := filter_songs_json played_filenames Done Done disk in
  let pass2 := filter_songs_json played_filenames Done Done (snd pass1) in
  fst pass1 = true /\ fst pass2 = true
  /\ combined_songs (snd pass2) = combined_songs (snd pass1)
  /\ combined_songs_backup (snd pass1) = Content songs
  /\ combined_songs_backup (snd pass2) = Content (filter_songs played_filenames songs).
Proof.
  intros Hs. unfold filter_songs_json. rewrite Hs. cbn.
  split; [reflexivity|]. split; [reflexivity|].
  split; [|split; reflexivity]. f_equal. apply filter_songs_idem.
Qed.

Lemma X20_second_filter_overwrites_backup_witness :
  let played := fst (clean_lines PlayedDemo.played_lines) in
  let pass1 := filter_songs_json played Done Done PlayedDemo.disk in
  let pass2 := filter_songs_json played Done Done (snd pass1) in
  fst pass1 = true /\ fst pass2 = true
  /\ combined_songs (snd pass2) = combined_songs (snd pass1)
  /\ combined_songs_backup (snd pass1) = Content PlayedDemo.corpus
  /\ combined_songs_backup (snd pass2) = Content (filter_songs played PlayedDemo.corpus).
Proof.
  apply (X20_second_filter_overwrites_backup
           (fst (clean_lines PlayedDemo.played_lines)) PlayedDemo.disk PlayedDemo.corpus).
  reflexivity.
Defined.

(** ** [combine_jsons.py] *)

Lemma combine_fold json_files acc :
  fold_left combine_step json_files acc
  = acc ++ omap (fun json_file => simplified_song (fst json_file) <$> snd json_file)
             json_files.
Proof.
  revert acc. induction json_files as [|[stem [song_data|]] rest IH]; intros acc.
  - simpl. now rewrite app_nil_r.
  - simpl. rewrite IH. unfold combine_step at 1. simpl. now rewrite <- app_assoc.
  - simpl. rewrite IH. reflexivity.
Qed.

Lemma combined_In json_files s :
  In s (fold_left combine_step json_files []) <->
  exists stem song_data,
    In (stem, Some song_data) json_files /\ s = simplified_song stem song_data.
Proof.
  rewrite combine_fold. simpl. rewrite <- list_elem_of_In, list_elem_of_omap. split.
  - intros ([stem [song_data|]] & Hin & Heq); simpl in Heq; [|discriminate].
    injection Heq as <-. exists stem, song_data. split; [|reflexivity].
    now apply list_elem_of_In.
  - intros (stem & song_data & Hin & ->). exists (stem, Some song_data).
    split; [now apply list_elem_of_In|reflexivity].
Qed.

(** X21: [combine_json_files] returns [False] and writes nothing when
    the folder is missing or has no JSON file. Otherwise, when the save
    completes, it returns [True] and [combined_songs.json] holds one
    record per file that could be read, in the order of the listing,
    each with both keys; when no file could be read that is the empty
    list, and the corpus file is overwritten with it all the same. When
    the save raises it returns [False], the corpus file is as the failed
    write left it and the other files are untouched. *)
Theorem X21_combined_corpus (input_folder : option JsonFolder)
    (write_output : Write (list Song)) (disk : Disk) :
  match input_folder with
  | None | Some [] => combine_json_files input_folder write_output disk = (false, disk)
  | Some json_files =>
      combine_json_files input_folder Done disk
      = (true,
         mkDisk (played_txt disk)
                (Content (omap (fun json_file =>
                                  simplified_song (fst json_file) <$> snd json_file)
                               json_files))
                (combined_songs_backup disk))
      /\ (Forall (fun json_file => snd json_file = None) json_files ->
          combined_songs (snd (combine_json_files input_folder Done disk)) = Content [])
      /\ (forall songs s,
            combined_songs (snd (combine_json_files input_folder Done disk))
            = Content songs ->
            In s songs -> filename s <> None /\ lyrics s <> None)
      /\ (forall remains,
            combine_json_files input_folder (Failed remains) disk
            = (false, mkDisk (played_txt disk) remains (combined_songs_backup disk)))
  end.
Proof.
  destruct input_folder as [[|json_file rest]|]; try reflexivity.
  unfold combine_json_files. cbn [snd combined_songs].
  rewrite combine_fold. cbn [app]. split; [reflexivity|]. split; [|split].
  - intros Hall. f_equal. induction Hall as [|[stem o] l Ho _ IH]; [reflexivity|].
    simpl in Ho. subst o. exact IH.
  - intros songs s Hsongs Hin.
    set (combined := omap _ (json_file :: rest)) in Hsongs.
    injection Hsongs as <-. unfold combined in Hin.
    apply list_elem_of_In, list_elem_of_omap in Hin
      as ([stem [song_data|]] & _ & Heq); simpl in Heq; [|discriminate].
    injection Heq as <-. split; discriminate.
  - intros remains. reflexivity.
Qed.

Lemma combined_names json_files :
  (forall stem song_data, In (stem, Some song_data) json_files ->
     filename song_data = None \/ filename song_data = Some stem) ->
  sublist (List.map get_filename (fold_left combine_step json_files []))
          (List.map fst json_files).
Proof.
  rewrite combine_fold. cbn [app].
  induction json_files as [|[stem [song_data|]] rest IH]; intros Hkey.
  - constructor.
  - assert (Hs : get_filename (simplified_song stem song_data) = stem).
    { unfold get_filename, simplified_song. cbn.
      destruct (Hkey stem song_data (or_introl eq_refl)) as [->| ->]; reflexivity. }
    change (sublist (get_filename (simplified_song stem song_data)
                       :: List.map get_filename
                            (omap (fun json_file =>
                                     simplified_song (fst json_file) <$> snd json_file) rest))
                    (stem :: List.map fst rest)).
    rewrite Hs. apply sublist_skip. apply IH.
    intros st sd Hin. apply Hkey. now right.
  - change (sublist (List.map get_filename
                       (omap (fun json_file =>
                                simplified_song (fst json_file) <$> snd json_file) rest))
                    (stem :: List.map fst rest)).
    apply sublist_cons. apply IH.
    intros st sd Hin. apply Hkey. now right.
Qed.

(** X22: when the stems of the folder are pairwise distinct and every
    file's ['filename'] is its stem or is missing (what [parse_pdf.py]
    writes), the records of the combined corpus have pairwise distinct
    names, so the recommender's lookup by filename returns the very
    record it is asked for. *)
Theorem X22_combined_names_distinct (json_files : JsonFolder) :
  NoDup (List.map fst json_files) ->
  (forall stem song_data, In (stem, Some song_data) json_files ->
     filename song_data = None \/ filename song_data = Some stem) ->
  NoDup (List.map get_filename (fold_left combine_step json_files []))
  /\ (forall s, In s (fold_left combine_step json_files []) ->
        find_song (fold_left combine_step json_files []) (get_filename s) = Some s).
Proof.
  intros Hnd Hkey.
  assert (Hnames : NoDup (List.map get_filename (fold_left combine_step json_files []))).
  { eapply sublist_NoDup; [exact Hnd|]. now apply combined_names. }
  split; [exact Hnames|]. intros s Hin.
  apply find_song_unique; [exact Hnames|exact Hin|].
  apply combined_In in Hin as (stem & song_data & _ & ->). reflexivity.
Qed.

Lemma X22_combined_names_distinct_witness :
  NoDup (List.map get_filename (fold_left combine_step FolderDemo.json_files []))
  /\ (forall s, In s (fold_left combine_step FolderDemo.json_files []) ->
        find_song (fold_left combine_step FolderDemo.json_files []) (get_filename s)
        = Some s).
Proof.
  apply (X22_combined_names_distinct FolderDemo.json_files).
  - refine (bool_decide_unpack _ _). vm_compute. exact I.
  - intros stem song_data Hin. simpl in Hin.
    destruct Hin as [E|[E|[E|[E|[]]]]]; inversion E; subst; auto.
Defined.

(** ** [parse_pdf.py]: the parsed record *)

Lemma classify_fold ua lines lyrics chords :
  fold_left (PDFParser.classify_step ua) lines (lyrics, chords)
  = (lyrics ++ List.filter (fun line => negb (Re.search ua line))
                 (List.filter (fun line => Py.truthy line && negb (PDFParser.is_metadata line))
                              (List.map Py.strip lines)),
     chords ++ List.filter (Re.search ua)
                 (List.filter (fun line => Py.truthy line && negb (PDFParser.is_metadata line))
                              (List.map Py.strip lines))).
Proof.
  revert lyrics chords. induction lines as [|line lines IH]; intros lyrics chords.
  - simpl. now rewrite !app_nil_r.
  - cbn [fold_left List.map List.filter]. unfold PDFParser.classify_step at 2.
    destruct (Py.truthy (Py.strip line)); cbn [negb andb]; [|apply IH].
    destruct (PDFParser.is_metadata (Py.strip line)); cbn [negb]; [apply IH|].
    cbn [List.filter]. destruct (Re.search ua (Py.strip line)); cbn [negb];
      rewrite IH, <- app_assoc; reflexivity.
Qed.

Lemma find_title_hd lines :
  PDFParser.find_title lines
  = hd [] (List.filter (fun line => Py.truthy line && negb (PDFParser.is_metadata line))
                       (List.map Py.strip lines)).
Proof.
  induction lines as [|line lines IH]; [reflexivity|].
  cbn [PDFParser.find_title List.map List.filter]. unfold PDFParser.is_metadata at 1.
  destruct (Py.truthy (Py.strip line)); cbn [andb]; [|exact IH].
  destruct (PyStr.startswith (Py.strip line) [169%N]); cbn [negb andb orb]; [exact IH|].
  destruct (PyStr.startswith (Py.strip line) (Py.lit "Chords:")); cbn [negb];
    [exact IH|reflexivity].
Qed.

Lemma parse_song_content_eq ua text filename :
  PDFParser.parse_song_content ua text filename
  = PDFParser.mkSongData filename (hd [] (PDFParser.kept_lines text)) []
      (List.filter (fun line => negb (Re.search ua line)) (PDFParser.kept_lines text))
      (List.filter (Re.search ua) (PDFParser.kept_lines text)) [] text.
Proof.
  unfold PDFParser.parse_song_content. destruct text as [|c text]; [reflexivity|].
  cbn [Py.truthy negb]. rewrite classify_fold, find_title_hd. reflexivity.
Qed.

(** X23: [parse_song_content] sorts the lines it keeps (trimmed, not
    blank, not starting with the copyright sign or 'Chords:') into
    ['chords'], those the chord pattern is found in, and ['lyrics'], the
    others, each in the order of the text; ['filename'] and ['raw_text']
    are the arguments and ['artist'] and ['metadata'] stay empty. The
    early return on an empty text gives what the loops would give. *)
Theorem X23_lyrics_and_chords (unicode_alnum : N -> bool) (text filename : Py.str) :
  PDFParser.parse_song_content unicode_alnum text filename
  = PDFParser.mkSongData filename (hd [] (PDFParser.kept_lines text)) []
      (List.filter (fun line => negb (Re.search unicode_alnum line))
                   (PDFParser.kept_lines text))
      (List.filter (Re.search unicode_alnum) (PDFParser.kept_lines text)) [] text.
Proof. apply parse_song_content_eq. Qed.

Lemma kept_lines_truthy text line :
  In line (PDFParser.kept_lines text) ->
  line <> [] /\ PDFParser.is_metadata line = false
  /\ exists raw, In raw (PyStr.split 10 text) /\ line = Py.strip raw.
Proof.
  unfold PDFParser.kept_lines. rewrite filter_In, in_map_iff.
  intros [(raw & <- & Hraw) Hb]. apply andb_true_iff in Hb as [Ht Hm].
  split; [destruct (Py.strip raw); [discriminate|discriminate]|].
  split; [now apply negb_true_iff|]. exists raw. auto.
Qed.

(** X24: the title is the first kept line and it is not taken out: a
    record with a title has it as the first entry of ['lyrics'] or of
    ['chords'], and the title is empty only when both lists are. *)
Theorem X24_title_is_first_line (unicode_alnum : N -> bool) (text filename : Py.str) :
  let song_data := PDFParser.parse_song_content unicode_alnum text filename in
  (PDFParser.title song_data = [] <->
     PDFParser.lyrics song_data = [] /\ PDFParser.chords song_data = [])
  /\ (PDFParser.title song_data <> [] ->
      head (PDFParser.lyrics song_data) = Some (PDFParser.title song_data)
      \/ head (PDFParser.chords song_data) = Some (PDFParser.title song_data)).
Proof.
  cbn zeta. rewrite parse_song_content_eq. cbn [PDFParser.title PDFParser.lyrics PDFParser.chords].
  pose proof (kept_lines_truthy text) as Hk.
  destruct (PDFParser.kept_lines text) as [|line rest].
  - simpl. split; [tauto|congruence].
  - destruct (Hk line (or_introl eq_refl)) as (Hne & _).
    cbn [hd List.filter]. destruct (Re.search unicode_alnum line); cbn [negb].
    + split; [|intros _; right; reflexivity].
      split; [congruence|]. intros [_ H]. discriminate.
    + split; [|intros _; left; reflexivity].
      split; [congruence|]. intros [H _]. discriminate.
Qed.

(** ** [parse_pdf.py]: the chord pattern *)

Lemma range_inv lo hi s p q :
  In q (Re.range lo hi s p) ->
  q = S p /\ exists c, nth_error s p = Some c /\ (lo <= c <= hi)%N.
Proof.
  unfold Re.range. destruct (nth_error s p) as [c|]; [|intros []].
  destruct (N.leb_spec lo c) as [Hlo|Hlo]; destruct (N.leb_spec c hi) as [Hhi|Hhi];
    simpl; intros Hq; try contradiction.
  destruct Hq as [<-|[]]. split; [reflexivity|]. exists c. split; [reflexivity|lia].
Qed.

Lemma search_capital ua s :
  Re.search ua s = true -> exists c, In c s /\ (65 <= c <= 71)%N.
Proof.
  unfold Re.search. intros H. apply existsb_exists in H as (p & _ & Hm).
  unfold Re.match_at in Hm. apply andb_true_iff in Hm as [_ He].
  apply existsb_exists in He as (q & Hq & _).
  unfold Re.chord_ends in Hq. apply in_flat_map in Hq as (p1 & Hp1 & _).
  apply range_inv in Hp1 as (_ & c & Hc & Hr).
  exists c. split; [|exact Hr]. eapply nth_error_In, Hc.
Qed.

Lemma chord_ends_shortest s p c :
  nth_error s p = Some c -> (65 <= c <= 71)%N -> In (S p) (Re.chord_ends s p).
Proof.
  intros Hc Hr. unfold Re.chord_ends. apply in_flat_map. exists (S p). split.
  - unfold Re.range. rewrite Hc.
    destruct (N.leb_spec 65 c); [|lia]. destruct (N.leb_spec c 71); [|lia].
    now left.
  - apply in_flat_map. exists (S p). split.
    + unfold Re.optional. apply in_or_app. right. now left.
    + apply in_flat_map. exists (S p). split.
      * unfold Re.optional. apply in_or_app. right. now left.
      * unfold Re.optional. apply in_or_app. right. now left.
Qed.

Lemma capital_is_word ua c : (65 <= c <= 71)%N -> Re.is_word ua c = true.
Proof.
  intros Hr. unfold Re.is_word.
  destruct (N.ltb_spec c 128); [|lia].
  destruct (N.leb_spec 65 c); [|lia]. destruct (N.leb_spec c 90); [|lia].
  simpl. now rewrite orb_true_r.
Qed.

Lemma search_standalone ua pre c post :
  (65 <= c <= 71)%N ->
  (forall x, last pre = Some x -> Re.is_word ua x = false) ->
  (forall y, head post = Some y -> Re.is_word ua y = false) ->
  Re.search ua (pre ++ c :: post) = true.
Proof.
  intros Hr Hpre Hpost. unfold Re.search. apply existsb_exists.
  exists (length pre). split.
  { apply in_seq. rewrite length_app. simpl. lia. }
  assert (Hc : nth_error (pre ++ c :: post) (length pre) = Some c).
  { rewrite nth_error_app2 by lia. now rewrite Nat.sub_diag. }
  assert (Hw : Re.word_at ua (pre ++ c :: post) (length pre) = true).
  { unfold Re.word_at. rewrite Hc. now apply capital_is_word. }
  unfold Re.match_at. apply andb_true_iff. split.
  - unfold Re.boundary. rewrite Hw.
    destruct (length pre) as [|q] eqn:Hlen; [reflexivity|].
    destruct (exists_last (l := pre)) as (pre' & x & ->).
    { intros ->. discriminate. }
    rewrite length_app in Hlen. simpl in Hlen.
    assert (q = length pre') as -> by lia.
    unfold Re.word_at. rewrite <- app_assoc, nth_error_app2 by lia.
    rewrite Nat.sub_diag. simpl. rewrite (Hpre x); [reflexivity|].
    apply last_snoc.
  - apply existsb_exists. exists (S (length pre)). split.
    + eapply chord_ends_shortest; eauto.
    + unfold Re.boundary. rewrite Hw. unfold Re.word_at.
      replace (S (length pre)) with (length (pre ++ [c]) + 0)
        by (rewrite length_app; simpl; lia).
      change (pre ++ c :: post) with (pre ++ [c] ++ post).
      rewrite app_assoc, nth_error_app2 by lia.
      replace (length (pre ++ [c]) + 0 - length (pre ++ [c])) with 0 by lia.
      destruct post as [|y post]; [reflexivity|]. simpl.
      now rewrite (Hpost y eq_refl).
Qed.

Lemma lstrip_In c s : In c (Py.lstrip s) -> In c s.
Proof.
  destruct (lstrip_suffix s) as (pre & E & _). intros H. rewrite E.
  apply in_or_app. now right.
Qed.

Lemma strip_In c s : In c (Py.strip s) -> In c s.
Proof.
  unfold Py.strip, Py.rstrip. intros H. apply in_rev in H.
  apply lstrip_In in H. apply in_rev in H. now apply lstrip_In.
Qed.

Lemma split_In sep text piece c :
  In piece (PyStr.split sep text) -> In c piece -> In c text.
Proof.
  revert piece. induction text as [|d text IH]; intros piece; simpl.
  - intros [<-|[]] [].
  - destruct (N.eqb_spec d sep).
    + intros [<-|Hin] Hc; [destruct Hc|]. right. eapply IH; eauto.
    + destruct (PyStr.split sep text) as [|first pieces] eqn:E.
      * intros [<-|[]] [<-|[]]. now left.
      * intros [<-|Hin] Hc.
        -- destruct Hc as [<-|Hc]; [now left|]. right.
           apply (IH first); [now left|exact Hc].
        -- right. apply (IH piece); [now right|exact Hc].
Qed.

(** X25: a kept line in which one of the capitals A to G stands alone,
    with no word character directly before or after it, is a chord line:
    it goes to ['chords'] and not to ['lyrics'], whatever else the line
    says. *)
Theorem X25_standalone_capital_is_chord (unicode_alnum : N -> bool)
    (text filename : Py.str) (line pre post : Py.str) (c : N) :
  In line (PDFParser.kept_lines text) ->
  line = pre ++ c :: post ->
  (65 <= c <= 71)%N ->
  (forall x, last pre = Some x -> Re.is_word unicode_alnum x = false) ->
  (forall y, head post = Some y -> Re.is_word unicode_alnum y = false) ->
  In line (PDFParser.chords (PDFParser.parse_song_content unicode_alnum text filename))
  /\ ~ In line (PDFParser.lyrics (PDFParser.parse_song_content unicode_alnum text filename)).
Proof.
  intros Hin -> Hr Hpre Hpost. rewrite parse_song_content_eq.
  cbn [PDFParser.chords PDFParser.lyrics].
  pose proof (search_standalone unicode_alnum pre c post Hr Hpre Hpost) as Hs.
  rewrite !filter_In, Hs. split; [auto|]. intros [_ H]. discriminate.
Qed.

Lemma X25_standalone_capital_is_chord_witness :
  In (Py.lit "Am G")
     (PDFParser.chords
        (PDFParser.parse_song_content PdfDemo.ascii_only PdfDemo.text (Py.lit "hymn")))
  /\ ~ In (Py.lit "Am G")
       (PDFParser.lyrics
          (PDFParser.parse_song_content PdfDemo.ascii_only PdfDemo.text (Py.lit "hymn"))).
Proof.
  apply (X25_standalone_capital_is_chord PdfDemo.ascii_only PdfDemo.text (Py.lit "hymn")
           (Py.lit "Am G") (Py.lit "Am ") [] 71%N).
  - vm_compute. auto.
  - reflexivity.
  - lia.
  - intros x Hx. vm_compute in Hx. injection Hx as <-. reflexivity.
  - intros y Hy. discriminate.
Defined.

(** X26: a text without any of the capitals A to G has no chord lines:
    every kept line is a lyrics line. *)
Theorem X26_no_capital_no_chords (unicode_alnum : N -> bool)
    (text filename : Py.str) :
  (forall c, In c text -> (c < 65 \/ 71 < c)%N) ->
  PDFParser.chords (PDFParser.parse_song_content unicode_alnum text filename) = []
  /\ PDFParser.lyrics (PDFParser.parse_song_content unicode_alnum text filename)
     = PDFParser.kept_lines text.
Proof.
  intros Hno. rewrite parse_song_content_eq. cbn [PDFParser.chords PDFParser.lyrics].
  assert (Hs : forall line, In line (PDFParser.kept_lines text) ->
                            Re.search unicode_alnum line = false).
  { intros line Hin. destruct (Re.search unicode_alnum line) eqn:E; [|reflexivity].
    apply search_capital in E as (c & Hc & Hr).
    apply kept_lines_truthy in Hin as (_ & _ & raw & Hraw & ->).
    apply strip_In in Hc. pose proof (split_In _ _ _ _ Hraw Hc) as Ht.
    apply Hno in Ht. lia. }
  induction (PDFParser.kept_lines text) as [|line rest IH]; [split; reflexivity|].
  cbn [List.filter]. rewrite (Hs line (or_introl eq_refl)). cbn [negb].
  destruct IH as [IH1 IH2]; [intros l Hl; apply Hs; now right|].
  split; [exact IH1|]. now rewrite IH2.
Qed.

Lemma X26_no_capital_no_chords_witness :
  PDFParser.chords
    (PDFParser.parse_song_content PdfDemo.ascii_only (Py.lit "lyric one") (Py.lit "hymn")) = []
  /\ PDFParser.lyrics
       (PDFParser.parse_song_content PdfDemo.ascii_only (Py.lit "lyric one") (Py.lit "hymn"))
     = PDFParser.kept_lines (Py.lit "lyric one").
Proof.
  apply (X26_no_capital_no_chords PdfDemo.ascii_only (Py.lit "lyric one") (Py.lit "hymn")).
  intros c Hc. vm_compute in Hc.
  repeat (destruct Hc as [<-|Hc]; [lia|]). destruct Hc.
Defined.

(** ** [parse_pdf.py]: from the PDF to the corpus *)

Lemma lstrip_head s c r : Py.lstrip s = c :: r -> Py.isspace c = false.
Proof.
  induction s as [|d s IH]; simpl; [discriminate|].
  destruct (Py.isspace d) eqn:Hd; [exact IH|]. intros E. injection E as <- _. exact Hd.
Qed.

Lemma strip_visible s : Py.strip s <> [] -> forallb Py.isspace (Py.strip s) = false.
Proof.
  unfold Py.strip, Py.rstrip. intros Hne.
  destruct (Py.lstrip (rev (Py.lstrip s))) as [|c r] eqn:E; [now destruct Hne|].
  apply lstrip_head in E. simpl. rewrite forallb_app. simpl. rewrite E.
  now rewrite andb_false_r.
Qed.

Lemma all_lines_blank_visible lines :
  (forall line, In line lines -> forallb Py.isspace line = false) ->
  forallb (forallb Py.isspace) lines = true <-> lines = [].
Proof.
  intros Hv. destruct lines as [|line rest]; [tauto|]. split; [|discriminate].
  simpl. rewrite (Hv line (or_introl eq_refl)). discriminate.
Qed.

(** X27: the record [parse_pdf.py] saves has both keys, so
    [combine_jsons.py] copies its filename and lyrics unchanged; and the
    recommender embeds it exactly when the parser found at least one
    lyrics line: a song whose kept lines all match the chord pattern is
    never recommended. *)
Theorem X27_saved_record_embeddable (unicode_alnum : N -> bool)
    (text name json_stem : Py.str) :
  let song_data := PDFParser.parse_song_content unicode_alnum text name in
  simplified_song json_stem (PDFParser.saved song_data)
  = mkSong (Some name) (Some (PDFParser.lyrics song_data))
  /\ (embeddable (simplified_song json_stem (PDFParser.saved song_data)) = true
      <-> PDFParser.lyrics song_data <> []).
Proof.
  cbn zeta. rewrite parse_song_content_eq.
  cbn [PDFParser.saved PDFParser.lyrics PDFParser.filename simplified_song filename
       get_lyrics lyrics].
  split; [reflexivity|].
  set (lines := List.filter _ (PDFParser.kept_lines text)).
  assert (Hv : forall line, In line lines -> forallb Py.isspace line = false).
  { intros line Hin. apply filter_In in Hin as [Hin _].
    apply kept_lines_truthy in Hin as (Hne & _ & raw & _ & ->).
    now apply strip_visible. }
  rewrite embeddable_iff. unfold lyrics_text, get_lyrics. cbn [lyrics].
  rewrite <- (all_lines_blank_visible lines Hv).
  rewrite <- (join_all_space (Py.lit " ")) by reflexivity.
  rewrite strip_nil_iff. reflexivity.
Qed.

Lemma save_lookup song_data output_stem write output_folder :
  PDFParser.save_to_json song_data output_stem write output_folder !! output_stem
  = match write with
    | Done => Some (Some song_data)
    | Failed remains => entry remains
    end.
Proof.
  unfold PDFParser.save_to_json. destruct write as [|remains].
  - apply lookup_insert_eq.
  - apply lookup_partial_alter_eq.
Qed.

Lemma save_lookup_ne song_data output_stem write output_folder name :
  output_stem <> name ->
  PDFParser.save_to_json song_data output_stem write output_folder !! name
  = output_folder !! name.
Proof.
  intros Hne. unfold PDFParser.save_to_json. destruct write as [|remains].
  - now apply lookup_insert_ne.
  - now apply lookup_partial_alter_ne.
Qed.

Lemma process_fold ua pdf_files processed failed output_folder :
  fold_left (PDFParser.process_step ua) pdf_files (processed, failed, output_folder)
  = (processed
     + length (List.filter (fun pdf => bool_decide (is_Some (PDFParser.extract_text_from_pdf pdf)))
                           pdf_files),
     failed
     + length (List.filter (fun pdf => negb (bool_decide (is_Some (PDFParser.extract_text_from_pdf pdf))))
                           pdf_files),
     fold_left (fun folder pdf => snd (PDFParser.process_pdf ua pdf folder))
               pdf_files output_folder).
Proof.
  revert processed failed output_folder.
  induction pdf_files as [|pdf rest IH]; intros processed failed output_folder.
  - simpl. now rewrite !Nat.add_0_r.
  - cbn [fold_left List.filter]. unfold PDFParser.process_step at 2.
    unfold PDFParser.process_pdf at 1 3.
    destruct (PDFParser.extract_text_from_pdf pdf) as [text|] eqn:E.
    + rewrite bool_decide_eq_true_2 by eauto. cbn [negb snd]. rewrite IH.
      cbn [length]. f_equal. f_equal; lia.
    + rewrite bool_decide_eq_false_2 by (intros [? ?]; discriminate).
      cbn [negb snd]. rewrite IH. cbn [length]. f_equal. f_equal; lia.
Qed.

Lemma process_folder_other ua pdf_files output_folder name :
  (forall pdf, In pdf pdf_files -> PDFParser.stem pdf = name ->
               PDFParser.extract_text_from_pdf pdf = None) ->
  fold_left (fun folder pdf => snd (PDFParser.process_pdf ua pdf folder))
            pdf_files output_folder !! name
  = output_folder !! name.
Proof.
  revert output_folder. induction pdf_files as [|pdf rest IH]; intros output_folder Hn;
    [reflexivity|].
  cbn [fold_left]. rewrite IH by (intros p Hp; apply Hn; now right).
  unfold PDFParser.process_pdf.
  destruct (PDFParser.extract_text_from_pdf pdf) as [text|] eqn:E; [|reflexivity].
  cbn [snd]. apply save_lookup_ne. intros Hs.
  rewrite (Hn pdf (or_introl eq_refl) Hs) in E. discriminate.
Qed.

Lemma process_folder_at ua pdf_files output_folder pdf text :
  NoDup (List.map PDFParser.stem pdf_files) ->
  In pdf pdf_files -> PDFParser.extract_text_from_pdf pdf = Some text ->
  fold_left (fun folder pdf => snd (PDFParser.process_pdf ua pdf folder))
            pdf_files output_folder !! PDFParser.stem pdf
  = match PDFParser.save pdf with
    | Done => Some (Some (PDFParser.parse_song_content ua text (PDFParser.stem pdf)))
    | Failed remains => entry remains
    end.
Proof.
  revert output_folder. induction pdf_files as [|p rest IH]; intros output_folder Hnd Hin Ht;
    [destruct Hin|].
  cbn [List.map] in Hnd. apply NoDup_cons in Hnd as [Hnotin Hnd].
  cbn [fold_left]. destruct Hin as [->|Hin].
  - rewrite process_folder_other.
    + unfold PDFParser.process_pdf. rewrite Ht. cbn [snd]. apply save_lookup.
    + intros q Hq Hs. exfalso. apply Hnotin. rewrite <- Hs.
      apply list_elem_of_In, in_map, Hq.
  - now apply IH.
Qed.

(** X28: [process_all_pdfs] counts every listed PDF once: processed plus
    failed is the total, and processed is the number of PDFs whose text
    could be extracted, whether their JSON file could be written or not.
    With pairwise distinct stems, each processed PDF whose save
    completed has its parsed record under its stem in the output folder
    afterwards; one whose save raised has there what the failed write
    left, so a PDF counted as processed need not have a record; and a
    file of the folder that no processed PDF is named after is left as
    it was: nothing is deleted. *)
Theorem X28_process_all_pdfs (unicode_alnum : N -> bool)
    (pdf_files : list PDFParser.Pdf)
    (output_folder : gmap Py.str (option PDFParser.SongData)) :
  NoDup (List.map PDFParser.stem pdf_files) ->
  let result := PDFParser.process_all_pdfs unicode_alnum (Some pdf_files) output_folder in
  PDFParser.processed (fst result) + PDFParser.failed (fst result)
  = PDFParser.total (fst result)
  /\ PDFParser.total (fst result) = length pdf_files
  /\ PDFParser.processed (fst result)
     = length (List.filter
                 (fun pdf => bool_decide (is_Some (PDFParser.extract_text_from_pdf pdf)))
                 pdf_files)
  /\ (forall pdf text,
        In pdf pdf_files -> PDFParser.extract_text_from_pdf pdf = Some text ->
        PDFParser.save pdf = Done ->
        snd result !! PDFParser.stem pdf
        = Some (Some (PDFParser.parse_song_content unicode_alnum text (PDFParser.stem pdf))))
  /\ (forall pdf text remains,
        In pdf pdf_files -> PDFParser.extract_text_from_pdf pdf = Some text ->
        PDFParser.save pdf = Failed remains ->
        snd result !! PDFParser.stem pdf = entry remains)
  /\ (forall name,
        (forall pdf, In pdf pdf_files -> PDFParser.stem pdf = name ->
                     PDFParser.extract_text_from_pdf pdf = None) ->
        snd result !! name = output_folder !! name).
Proof.
  intros Hnd. cbn zeta. destruct pdf_files as [|pdf rest].
  { cbn. split; [reflexivity|]. split; [reflexivity|]. split; [reflexivity|].
    split; [intros p t []|]. split; [intros p t r []|]. intros name _. reflexivity. }
  unfold PDFParser.process_all_pdfs. rewrite process_fold.
  cbn [fst snd PDFParser.processed PDFParser.failed PDFParser.total].
  set (pdf_files := pdf :: rest) in *.
  split; [|split; [reflexivity|split; [reflexivity|split; [|split]]]].
  - simpl.
    exact (filter_length
             (fun pdf => bool_decide (is_Some (PDFParser.extract_text_from_pdf pdf)))
             pdf_files).
  - intros p text Hin Ht Hsave.
    rewrite (process_folder_at _ _ _ p text Hnd Hin Ht), Hsave. reflexivity.
  - intros p text remains Hin Ht Hsave.
    rewrite (process_folder_at _ _ _ p text Hnd Hin Ht), Hsave. reflexivity.
  - intros name Hn. now apply process_folder_other.
Qed.

Lemma X28_process_all_pdfs_witness :
  let pdf_files := [PdfDemo.one_page; PdfDemo.damaged; PdfDemo.unsaved] in
  let result := PDFParser.process_all_pdfs PdfDemo.ascii_only (Some pdf_files) ∅ in
  PDFParser.processed (fst result) + PDFParser.failed (fst result)
  = PDFParser.total (fst result)
  /\ PDFParser.total (fst result) = length pdf_files
  /\ PDFParser.processed (fst result)
     = length (List.filter
                 (fun pdf => bool_decide (is_Some (PDFParser.extract_text_from_pdf pdf)))
                 pdf_files)
  /\ (forall pdf text,
        In pdf pdf_files -> PDFParser.extract_text_from_pdf pdf = Some text ->
        PDFParser.save pdf = Done ->
        snd result !! PDFParser.stem pdf
        = Some (Some (PDFParser.parse_song_content PdfDemo.ascii_only text
                        (PDFParser.stem pdf))))
  /\ (forall pdf text remains,
        In pdf pdf_files -> PDFParser.extract_text_from_pdf pdf = Some text ->
        PDFParser.save pdf = Failed remains ->
        snd result !! PDFParser.stem pdf = entry remains)
  /\ (forall name,
        (forall pdf, In pdf pdf_files -> PDFParser.stem pdf = name ->
                     PDFParser.extract_text_from_pdf pdf = None) ->
        snd result !! name = (∅ : gmap Py.str (option PDFParser.SongData)) !! name).
Proof.
  apply (X28_process_all_pdfs PdfDemo.ascii_only
           [PdfDemo.one_page; PdfDemo.damaged; PdfDemo.unsaved] ∅).
  refine (bool_decide_unpack _ _). vm_compute. exact I.
Defined.

Lemma plumber_fold_blank pages text :
  forallb Py.isspace text = true ->
  Forall (fun page_text => forall t, page_text = Some t -> forallb Py.isspace t = true)
         pages ->
  forallb Py.isspace (fold_left PDFParser.plumber_step pages text) = true.
Proof.
  intros Ht Hall. revert text Ht.
  induction Hall as [|page rest Hp _ IH]; intros text Ht; [exact Ht|].
  cbn [fold_left]. apply IH. unfold PDFParser.plumber_step.
  destruct page as [t|]; [|exact Ht]. destruct (Py.truthy t); [|exact Ht].
  rewrite !forallb_app, Ht, (Hp t eq_refl). reflexivity.
Qed.

(** X29: a PDF whose pages give no visible text with pdfplumber (a
    scan) is processed, not failed: [process_pdf] returns [True],
    whatever the save does, and the record it hands to [save_to_json]
    has empty title, lyrics and chords; when the save completes that
    record is in the folder under the stem, and the recommender drops
    it. *)
Theorem X29_pdf_without_text (unicode_alnum : N -> bool) (pdf : PDFParser.Pdf)
    (pages : list (option Py.str))
    (output_folder : gmap Py.str (option PDFParser.SongData)) :
  PDFParser.pdfplumber pdf = Returns pages ->
  Forall (fun page_text => forall t, page_text = Some t -> forallb Py.isspace t = true)
         pages ->
  PDFParser.process_pdf unicode_alnum pdf output_folder
  = (true,
     PDFParser.save_to_json
       (PDFParser.mkSongData (PDFParser.stem pdf) [] [] [] [] [] [])
       (PDFParser.stem pdf) (PDFParser.save pdf) output_folder)
  /\ (PDFParser.save pdf = Done ->
      snd (PDFParser.process_pdf unicode_alnum pdf output_folder) !! PDFParser.stem pdf
      = Some (Some (PDFParser.mkSongData (PDFParser.stem pdf) [] [] [] [] [] [])))
  /\ embeddable
       (PDFParser.saved (PDFParser.mkSongData (PDFParser.stem pdf) [] [] [] [] [] []))
     = false.
Proof.
  intros Hp Hall.
  assert (Hrun : PDFParser.process_pdf unicode_alnum pdf output_folder
                 = (true,
                    PDFParser.save_to_json
                      (PDFParser.mkSongData (PDFParser.stem pdf) [] [] [] [] [] [])
                      (PDFParser.stem pdf) (PDFParser.save pdf) output_folder)).
  { unfold PDFParser.process_pdf, PDFParser.extract_text_from_pdf. rewrite Hp.
    assert (Hs : Py.strip (fold_left PDFParser.plumber_step pages []) = []).
    { apply strip_nil_iff, plumber_fold_blank; [reflexivity|exact Hall]. }
    rewrite Hs. reflexivity. }
  split; [exact Hrun|]. split; [|reflexivity].
  intros Hsave. rewrite Hrun. cbn [snd]. rewrite save_lookup, Hsave. reflexivity.
Qed.

Lemma X29_pdf_without_text_witness :
  PDFParser.process_pdf PdfDemo.ascii_only PdfDemo.scan ∅
  = (true,
     PDFParser.save_to_json
       (PDFParser.mkSongData (PDFParser.stem PdfDemo.scan) [] [] [] [] [] [])
       (PDFParser.stem PdfDemo.scan) (PDFParser.save PdfDemo.scan) ∅)
  /\ snd (PDFParser.process_pdf PdfDemo.ascii_only PdfDemo.scan ∅)
     !! PDFParser.stem PdfDemo.scan
     = Some (Some (PDFParser.mkSongData (PDFParser.stem PdfDemo.scan) [] [] [] [] [] []))
  /\ embeddable
       (PDFParser.saved
          (PDFParser.mkSongData (PDFParser.stem PdfDemo.scan) [] [] [] [] [] []))
     = false.
Proof.
  destruct (X29_pdf_without_text PdfDemo.ascii_only PdfDemo.scan
              [None; Some []; Some (Py.lit "  ")] ∅) as (Hrun & Hsaved & Hdrop).
  - reflexivity.
  - repeat constructor; intros t Ht; inversion Ht; reflexivity.
  - split; [exact Hrun|]. split; [apply Hsaved; reflexivity|exact Hdrop].
Defined.

(** ** [keep_only_relevant.py]: cleaning again *)

Lemma lstrip_snoc s c :
  Py.lstrip (s ++ [c])
  = if forallb Py.isspace s then Py.lstrip [c] else Py.lstrip s ++ [c].
Proof.
  induction s as [|d s IH]; [reflexivity|]. simpl.
  destruct (Py.isspace d); simpl; [exact IH|reflexivity].
Qed.

Lemma strip_snoc_space s c : Py.isspace c = true -> Py.strip (s ++ [c]) = Py.strip s.
Proof.
  intros Hc. unfold Py.strip. rewrite lstrip_snoc.
  destruct (forallb Py.isspace s) eqn:E.
  - apply lstrip_nil_iff in E. rewrite E. simpl. rewrite Hc. reflexivity.
  - unfold Py.rstrip. rewrite rev_app_distr. simpl. rewrite Hc. reflexivity.
Qed.

(** X30: when both write backs complete, cleaning [Played.txt] a second
    time trims every name of the first pass and removes one more
    extension from it: the second set is the image of the first under
    that step, without the names that trim to nothing. A name that kept
    an inner extension or a trailing blank in the first pass changes in
    the second. *)
Theorem X30_second_cleaning (disk : Disk) (lines : list Py.str) :
  played_txt disk = Content lines ->
  forall x,
    x ∈ fst (clean_played_file Done (snd (clean_played_file Done disk))) <->
    exists name, name ∈ fst (clean_played_file Done disk) /\ Py.strip name <> []
                 /\ x = remove_extension extensions (Py.strip name).
Proof.
  intros Hp x. unfold clean_played_file at 2 3. rewrite Hp.
  destruct (clean_lines_spec lines) as (_ & HU & _).
  destruct (clean_lines lines) as [U L]. cbn [fst snd] in *.
  unfold clean_played_file. cbn [played_txt].
  set (written := List.map (fun name => name ++ [10%N]) (PyStr.sorted L)).
  destruct (clean_lines_spec written) as (_ & _ & HW).
  destruct (clean_lines written) as [U' L']. cbn [fst snd] in *.
  rewrite HW. split.
  - intros (line & Hin & Hne & ->). unfold written in Hin.
    apply in_map_iff in Hin as (name & <- & Hin).
    rewrite strip_snoc_space in * by reflexivity.
    exists name. split; [|split; [exact Hne|reflexivity]].
    apply HU. apply list_elem_of_In.
    rewrite <- (sorted_Permutation L). now apply list_elem_of_In.
  - intros (name & Hin & Hne & ->). exists (name ++ [10%N]).
    rewrite strip_snoc_space by reflexivity.
    split; [|split; [exact Hne|reflexivity]].
    unfold written. apply in_map_iff. exists name. split; [reflexivity|].
    apply list_elem_of_In. rewrite (sorted_Permutation L).
    apply list_elem_of_In, HU, Hin.
Qed.

Lemma X30_second_cleaning_witness :
  Py.lit "a" ∈ fst (clean_played_file Done (snd (clean_played_file Done PlayedDemo.disk)))
  <->
  exists name, name ∈ fst (clean_played_file Done PlayedDemo.disk) /\ Py.strip name <> []
               /\ Py.lit "a" = remove_extension extensions (Py.strip name).
Proof.
  apply (X30_second_cleaning PlayedDemo.disk PlayedDemo.played_lines).
  reflexivity.
Defined.
